(** * Model success order rate statistics: a shallow embedding

    Embedding of [statistic_model_success_order_rate.py]: the lookup loader
    ([load_model_mappings]), the hasher ([generate_md5]), the matcher
    ([process_phone_data]), the aggregator ([count_data_by_model]), the rate
    calculator ([calculate_order_success_rate]) and the part of
    [run_full_process] that chains them (steps 3 to 7).

    Conventions.
    - A Python [str] is the list of its code points.
    - A Python [dict] is an association list in insertion order, with
      Python's update rule (an existing key keeps its position).
    - A function that returns [False] on failure returns [false] here; an
      exception that escapes a function is a [Raise].
    - The CSV files that carry a table from one step to the next are kept as
      the table itself; see [Frames] for what [pandas.read_csv] is taken to
      return. *)

From Stdlib Require Import List ZArith NArith QArith Lia Bool.
From Stdlib Require Import Strings.String Strings.Ascii.
From Stdlib Require Import Sorting.Sorted Sorting.Permutation.
Import ListNotations.

Local Open Scope N_scope.

(** ** Python strings *)

Module PyStr.

Definition char := N.
Definition str := list char.

Definition TAB : char := 9.
Definition LF : char := 10.
Definition SPACE : char := 32.

(** A literal of ASCII characters, as the code points of a [str]. *)
Definition lit (s : string) : str := map N_of_ascii (list_ascii_of_string s).

(** [str.isspace] on one character: the white space of CPython's Unicode
    database. *)
Definition isspace (c : char) : bool :=
  ((9 <=? c) && (c <=? 13)) || ((28 <=? c) && (c <=? 32))
  || (c =? 0x85) || (c =? 0xA0) || (c =? 0x1680)
  || ((0x2000 <=? c) && (c <=? 0x200A))
  || (c =? 0x2028) || (c =? 0x2029) || (c =? 0x202F) || (c =? 0x205F)
  || (c =? 0x3000).

Fixpoint lstrip (s : str) : str :=
  match s with
  | [] => []
  | c :: s' => if isspace c then lstrip s' else s
  end.

Definition rstrip (s : str) : str := rev (lstrip (rev s)).

(** [s.strip()] *)
Definition strip (s : str) : str := rstrip (lstrip s).

(** [s.split(sep)] for a separator of one character: every occurrence
    splits, and the empty string gives one empty field. *)
Fixpoint split (sep : char) (s : str) : list str :=
  match s with
  | [] => [[]]
  | c :: s' =>
      if c =? sep then [] :: split sep s'
      else match split sep s' with
           | w :: ws => (c :: w) :: ws
           | [] => [[c]]
           end
  end.

Fixpoint eqb (s t : str) : bool :=
  match s, t with
  | [], [] => true
  | c :: s', d :: t' => (c =? d) && eqb s' t'
  | _, _ => false
  end.

(** [s <= t] on strings: lexicographic on code points. *)
Fixpoint leb (s t : str) : bool :=
  match s, t with
  | [], _ => true
  | _ :: _, [] => false
  | c :: s', d :: t' => (c <? d) || ((c =? d) && leb s' t')
  end.

Definition le (s t : str) : Prop := leb s t = true.

(** Truth value of a string: [if s:] holds for a non-empty one. *)
Definition truthy (s : str) : bool :=
  match s with [] => false | _ :: _ => true end.

End PyStr.

Import PyStr.

(** ** Exceptions and results *)

Inductive exn : Type :=
| FileNotFoundError
| UnicodeEncodeError
| StopIteration
| KeyError (label : str).

Inductive result (A : Type) : Type :=
| Ok (a : A)
| Raise (e : exn).

Arguments Ok {A} a.
Arguments Raise {A} e.

Definition bind {A B : Type} (r : result A) (k : A -> result B) : result B :=
  match r with
  | Ok a => k a
  | Raise e => Raise e
  end.

Notation "x <- r ;; k" := (bind r (fun x => k))
  (at level 61, r at next level, right associativity).

(** ** [str.encode('utf-8')] *)

Module Utf8.

Definition cont (c : N) : Z := Z.of_N (N.lor 0x80 (N.land c 0x3F)).

(** One code point; a surrogate cannot be encoded. *)
Definition encode_char (c : char) : result (list Z) :=
  if c <? 0x80 then Ok [Z.of_N c]
  else if c <? 0x800 then
    Ok [Z.of_N (N.lor 0xC0 (N.shiftr c 6)); cont c]
  else if c <? 0x10000 then
    if (0xD800 <=? c) && (c <=? 0xDFFF) then Raise UnicodeEncodeError
    else Ok [Z.of_N (N.lor 0xE0 (N.shiftr c 12)); cont (N.shiftr c 6); cont c]
  else if c <? 0x110000 then
    Ok [Z.of_N (N.lor 0xF0 (N.shiftr c 18)); cont (N.shiftr c 12);
        cont (N.shiftr c 6); cont c]
  else Raise UnicodeEncodeError.

Fixpoint encode (s : str) : result (list Z) :=
  match s with
  | [] => Ok []
  | c :: s' =>
      bs <- encode_char c ;;
      rest <- encode s' ;;
      Ok (bs ++ rest)
  end.

End Utf8.

(** ** [hashlib.md5]: the MD5 message digest of RFC 1321

    Bytes are integers in [0, 256), words are integers in [0, 2^32). *)

Module MD5.

Local Open Scope Z_scope.

Definition w32 (x : Z) : Z := x mod 2 ^ 32.
Definition not32 (x : Z) : Z := Z.lxor x 0xffffffff.
Definition rotl32 (x c : Z) : Z :=
  Z.lor (w32 (Z.shiftl x c)) (Z.shiftr x (32 - c)).

Definition S_table : list Z :=
  [7; 12; 17; 22; 7; 12; 17; 22; 7; 12; 17; 22; 7; 12; 17; 22;
   5; 9; 14; 20; 5; 9; 14; 20; 5; 9; 14; 20; 5; 9; 14; 20;
   4; 11; 16; 23; 4; 11; 16; 23; 4; 11; 16; 23; 4; 11; 16; 23;
   6; 10; 15; 21; 6; 10; 15; 21; 6; 10; 15; 21; 6; 10; 15; 21].

Definition K_table : list Z :=
  [0xd76aa478; 0xe8c7b756; 0x242070db; 0xc1bdceee;
   0xf57c0faf; 0x4787c62a; 0xa8304613; 0xfd469501;
   0x698098d8; 0x8b44f7af; 0xffff5bb1; 0x895cd7be;
   0x6b901122; 0xfd987193; 0xa679438e; 0x49b40821;
   0xf61e2562; 0xc040b340; 0x265e5a51; 0xe9b6c7aa;
   0xd62f105d; 0x02441453; 0xd8a1e681; 0xe7d3fbc8;
   0x21e1cde6; 0xc33707d6; 0xf4d50d87; 0x455a14ed;
   0xa9e3e905; 0xfcefa3f8; 0x676f02d9; 0x8d2a4c8a;
   0xfffa3942; 0x8771f681; 0x6d9d6122; 0xfde5380c;
   0xa4beea44; 0x4bdecfa9; 0xf6bb4b60; 0xbebfbc70;
   0x289b7ec6; 0xeaa127fa; 0xd4ef3085; 0x04881d05;
   0xd9d4d039; 0xe6db99e5; 0x1fa27cf8; 0xc4ac5665;
   0xf4292244; 0x432aff97; 0xab9423a7; 0xfc93a039;
   0x655b59c3; 0x8f0ccc92; 0xffeff47d; 0x85845dd1;
   0x6fa87e4f; 0xfe2ce6e0; 0xa3014314; 0x4e0811a1;
   0xf7537e82; 0xbd3af235; 0x2ad7d2bb; 0xeb86d391].

Record state : Type := mkState { sA : Z; sB : Z; sC : Z; sD : Z }.

Definition init : state :=
  mkState 0x67452301 0xefcdab89 0x98badcfe 0x10325476.

(** Little-endian bytes of a number, and back. *)
Fixpoint le_bytes (n : nat) (x : Z) : list Z :=
  match n with
  | O => []
  | S n' => x mod 256 :: le_bytes n' (x / 256)
  end.

Fixpoint le_word (bs : list Z) : Z :=
  match bs with
  | [] => 0
  | b :: bs' => b + 256 * le_word bs'
  end.

(** The sixteen words of a block of 64 bytes. *)
Fixpoint words (n : nat) (block : list Z) : list Z :=
  match n with
  | O => []
  | S n' => le_word (firstn 4 block) :: words n' (skipn 4 block)
  end.

Definition step (M : list Z) (st : state) (i : Z) : state :=
  let '(mkState a b c d) := st in
  let '(f, g) :=
    if i <? 16 then (Z.lor (Z.land b c) (Z.land (not32 b) d), i)
    else if i <? 32 then
      (Z.lor (Z.land d b) (Z.land (not32 d) c), (5 * i + 1) mod 16)
    else if i <? 48 then (Z.lxor b (Z.lxor c d), (3 * i + 5) mod 16)
    else (Z.lxor c (Z.lor b (not32 d)), (7 * i) mod 16) in
  let x := w32 (f + a + nth (Z.to_nat i) K_table 0 + nth (Z.to_nat g) M 0) in
  mkState d (w32 (b + rotl32 x (nth (Z.to_nat i) S_table 0))) b c.

Definition rounds : list Z := map Z.of_nat (seq 0 64).

Definition compress (st : state) (block : list Z) : state :=
  let '(mkState a b c d) := fold_left (step (words 16 block)) rounds st in
  mkState (w32 (sA st + a)) (w32 (sB st + b))
          (w32 (sC st + c)) (w32 (sD st + d)).

(** The message, one bit, zeros up to 56 modulo 64, and the length in bits
    on 64 bits. *)
Definition pad (msg : list Z) : list Z :=
  let len := Z.of_nat (List.length msg) in
  msg ++ [0x80] ++ repeat 0 (Z.to_nat ((55 - len) mod 64))
      ++ le_bytes 8 ((8 * len) mod 2 ^ 64).

Fixpoint blocks (fuel : nat) (bs : list Z) : list (list Z) :=
  match fuel, bs with
  | O, _ => []
  | _, [] => []
  | S fuel', _ => firstn 64 bs :: blocks fuel' (skipn 64 bs)
  end.

Definition digest (msg : list Z) : list Z :=
  let padded := pad msg in
  let st := fold_left compress (blocks (List.length padded) padded) init in
  le_bytes 4 (sA st) ++ le_bytes 4 (sB st)
    ++ le_bytes 4 (sC st) ++ le_bytes 4 (sD st).

Definition hex_digit (x : Z) : char :=
  if x <? 10 then Z.to_N (48 + x) else Z.to_N (87 + x).

(** [hexdigest()]: two lowercase hexadecimal digits per byte. *)
Definition hex (bs : list Z) : str :=
  flat_map (fun b => [hex_digit (b / 16); hex_digit (b mod 16)]) bs.

End MD5.

(** ** Hasher *)

(** [generate_md5]: [hashlib.md5(str(phone_number).encode('utf-8')).hexdigest()];
    [str] of a string is the string. *)
Definition generate_md5 (phone_number : str) : result str :=
  bs <- Utf8.encode phone_number ;;
  Ok (MD5.hex (MD5.digest bs)).

(** ** Python dictionaries *)

Module Dict.

Section Dict.
Context {V : Type}.

Definition dict : Type := list (str * V).

(** [d.get(k)] *)
Fixpoint get (d : dict) (k : str) : option V :=
  match d with
  | [] => None
  | (k', v) :: d' => if eqb k' k then Some v else get d' k
  end.

(** [d.get(k, default)] *)
Definition get_default (d : dict) (k : str) (default : V) : V :=
  match get d k with
  | Some v => v
  | None => default
  end.

(** [d[k] = v]: a key already present keeps its place, a new key goes
    last. *)
Fixpoint set (d : dict) (k : str) (v : V) : dict :=
  match d with
  | [] => [(k, v)]
  | (k', v') :: d' =>
      if eqb k' k then (k', v) :: d' else (k', v') :: set d' k v
  end.

(** [dict(zip(keys, values))], the pairs taken in order. *)
Definition of_pairs (l : list (str * V)) : dict :=
  fold_left (fun d kv => set d (fst kv) (snd kv)) l [].

(** [not d] *)
Definition is_empty (d : dict) : bool :=
  match d with [] => true | _ :: _ => false end.

Definition keys (d : dict) : list str := map fst d.

End Dict.

Arguments dict V : clear implicits.

End Dict.

(** ** Sorting a table on a column

    [sort_values] and the ordering of [value_counts] are insertion sorts
    here.  Both are applied to rows whose keys differ two by two or whose
    order among equal keys is sorted away afterwards ([sort_by_perm_unique]
    below), so the choice of the algorithm does not show in a result. *)

Section Sort.
Context {A : Type}.
Variable rle : A -> A -> bool.

Fixpoint insert_by (x : A) (l : list A) : list A :=
  match l with
  | [] => [x]
  | y :: l' => if rle x y then x :: l else y :: insert_by x l'
  end.

Definition sort_by (l : list A) : list A := fold_right insert_by [] l.
End Sort.

(** The order of the rows on a column of strings. *)
Definition key_leb {A : Type} (key : A -> str) (x y : A) : bool :=
  leb (key x) (key y).

Definition key_le {A : Type} (key : A -> str) (x y : A) : Prop :=
  le (key x) (key y).

(** [df.sort_values(column)] on a column of strings. *)
Definition sort_values {A : Type} (key : A -> str) (df : list A) : list A :=
  sort_by (key_leb key) df.

(** ** Tables and files *)

Local Open Scope Z_scope.

(** A row of the match file: [phone_number, phone_md5, model_name]. *)
Record MatchedRecord : Type := mkMatched {
  phone_number : str;
  phone_md5 : str;
  model_name : str
}.

(** A frequency table: rows [model_name, count]. *)
Definition FrequencyTable : Type := list (str * Z).

(** A row of the final report.  [order_success_rate] is the ratio itself, as
    an exact rational; the report renders it as a percentage with two
    decimals. *)
Record RateRow : Type := mkRate {
  rate_model_name : str;
  a_intention_count : Z;
  call_connect_count : Z;
  order_success_rate : Q
}.

(** The files of one run, by the names [FileManager] gives them.  A text
    file is the list of its lines, each with its line end; a missing file is
    [None]. *)
Inductive text_path : Type := base_data_file | call_connect_csv | a_intention_csv.
Inductive match_path : Type := call_connect_model_csv | a_intention_model_csv.
Inductive count_path : Type := call_connect_count_csv | a_intention_count_csv.

Record files : Type := mkFiles {
  text : text_path -> option (list str);
  matched : match_path -> option (list MatchedRecord);
  counts : count_path -> option FrequencyTable;
  final_output_file : option (list RateRow)
}.

Definition match_path_eqb (p q : match_path) : bool :=
  match p, q with
  | call_connect_model_csv, call_connect_model_csv => true
  | a_intention_model_csv, a_intention_model_csv => true
  | _, _ => false
  end.

Definition count_path_eqb (p q : count_path) : bool :=
  match p, q with
  | call_connect_count_csv, call_connect_count_csv => true
  | a_intention_count_csv, a_intention_count_csv => true
  | _, _ => false
  end.

Definition write_matched (fs : files) (p : match_path)
    (rows : list MatchedRecord) : files :=
  mkFiles (text fs)
          (fun q => if match_path_eqb q p then Some rows else matched fs q)
          (counts fs) (final_output_file fs).

Definition write_counts (fs : files) (p : count_path)
    (rows : FrequencyTable) : files :=
  mkFiles (text fs) (matched fs)
          (fun q => if count_path_eqb q p then Some rows else counts fs q)
          (final_output_file fs).

Definition write_final (fs : files) (rows : list RateRow) : files :=
  mkFiles (text fs) (matched fs) (counts fs) (Some rows).

(** A step of the run: it reads and writes the files, and returns a value or
    lets an exception escape. *)
Definition M (A : Type) : Type := files -> result A * files.

(** ** Data frames

    [pandas.read_csv] on a file written by an earlier step gives the rows
    back.  A column of model names is a column of strings in which the empty
    field has become the missing value [NaN]; that pandas reads a column of
    numerals as numbers, and some other spellings as missing values, is not
    part of this model. *)

Module Frames.

Inductive cell : Type :=
| NaN
| Str (s : str).

Definition read_field (s : str) : cell :=
  match s with
  | [] => NaN
  | _ :: _ => Str s
  end.

(** [df['model_name']] of a match file *)
Definition model_name_column (rows : list MatchedRecord) : list cell :=
  map (fun r => read_field (model_name r)) rows.

(** [c != ''] on a cell: a missing value is not the empty string. *)
Definition ne_empty (c : cell) : bool :=
  match c with
  | NaN => true
  | Str s => negb (eqb s [])
  end.

(** One pass of counting: missing values are not counted. *)
Definition tally (d : Dict.dict Z) (c : cell) : Dict.dict Z :=
  match c with
  | NaN => d
  | Str s => Dict.set d s (Dict.get_default d s 0 + 1)
  end.

(** [column.value_counts()]: the distinct values with their numbers of
    occurrences, the most frequent first. *)
Definition value_counts (column : list cell) : list (str * Z) :=
  sort_by (fun x y => snd y <=? snd x) (fold_left tally column []).

End Frames.

Import Frames.

(** ** Lookup loader *)

(** The body of the loop of [load_model_mappings], for one line. *)
Definition load_line (md5_model_map : Dict.dict str) (line : str)
    : Dict.dict str :=
  let parts := split TAB (strip line) in
  if (2 <=? List.length parts)%nat then
    let mobile_id := nth 0 parts [] in
    let model_name := nth 1 parts [] in
    Dict.set md5_model_map mobile_id model_name
  else md5_model_map.

(** [load_model_mappings].  A missing file is caught and gives the empty
    dictionary; [next(f)] on a file without a line raises [StopIteration],
    which is not caught. *)
Definition load_model_mappings (fs : files) : result (Dict.dict str) :=
  match text fs base_data_file with
  | None => Ok []
  | Some [] => Raise StopIteration
  | Some (_ :: lines) => Ok (fold_left load_line lines [])
  end.

(** ** Matcher *)

(** The first loop of [process_phone_data]: the stripped lines that are not
    empty. *)
Definition read_phone_numbers (lines : list str) : list str :=
  fold_left
    (fun phone_numbers line =>
       let phone_number := strip line in
       if truthy phone_number then phone_numbers ++ [phone_number]
       else phone_numbers)
    lines [].

(** The body of the matching loop, for one phone number.  The counter
    [matched_count] of the source only feeds the printed summary. *)
Definition match_phone (md5_model_map : Dict.dict str)
    (output_data : list MatchedRecord) (phone : str)
    : result (list MatchedRecord) :=
  md5_hash <- generate_md5 phone ;;
  let model_name := Dict.get_default md5_model_map md5_hash [] in
  Ok (output_data ++ [mkMatched phone md5_hash model_name]).

Fixpoint match_phones (md5_model_map : Dict.dict str)
    (output_data : list MatchedRecord) (phone_numbers : list str)
    : result (list MatchedRecord) :=
  match phone_numbers with
  | [] => Ok output_data
  | phone :: rest =>
      output_data' <- match_phone md5_model_map output_data phone ;;
      match_phones md5_model_map output_data' rest
  end.

(** [process_phone_data]: [False] when the phone file is missing or when the
    lookup table is empty; nothing is written unless every phone number was
    matched against the table. *)
Definition process_phone_data (phone_csv_file : text_path)
    (output_csv_file : match_path) : M bool :=
  fun fs =>
    match text fs phone_csv_file with
    | None => (Ok false, fs)
    | Some lines =>
        let phone_numbers := read_phone_numbers lines in
        match load_model_mappings fs with
        | Raise e => (Raise e, fs)
        | Ok md5_model_map =>
            if Dict.is_empty md5_model_map then (Ok false, fs)
            else
              match match_phones md5_model_map [] phone_numbers with
              | Raise e => (Raise e, fs)
              | Ok output_data =>
                  (Ok true, write_matched fs output_csv_file output_data)
              end
        end
    end.

(** ** Aggregator *)

(** The table [count_data_by_model] computes from the rows of a match
    file: [df[df['model_name'] != '']['model_name'].value_counts()], then
    [sort_values('model_name')]. *)
Definition model_counts (rows : list MatchedRecord) : FrequencyTable :=
  let column := filter ne_empty (model_name_column rows) in
  sort_values fst (value_counts column).

(** [count_data_by_model]: [False] when the input file is missing. *)
Definition count_data_by_model (input_file : match_path)
    (output_file : count_path) : M bool :=
  fun fs =>
    match matched fs input_file with
    | None => (Ok false, fs)
    | Some rows => (Ok true, write_counts fs output_file (model_counts rows))
    end.

(** ** Rate calculator *)

(** The body of the loop over [call_connect_dict.items()]. *)
Definition rate_row (a_intention_dict : Dict.dict Z)
    (results : list RateRow) (item : str * Z) : list RateRow :=
  let '(model_name, call_connect_count) := item in
  let a_intention_count := Dict.get_default a_intention_dict model_name 0 in
  let order_success_rate :=
    if 0 <? call_connect_count
    then (inject_Z a_intention_count / inject_Z call_connect_count)%Q
    else 0%Q in
  results ++ [mkRate model_name a_intention_count call_connect_count
                     order_success_rate].

(** [pd.DataFrame(results).sort_values('model_name')]: a frame made from no
    row has no column, and sorting it on a column raises [KeyError]. *)
Definition sort_results (results : list RateRow) : result (list RateRow) :=
  match results with
  | [] => Raise (KeyError (lit "model_name"))
  | _ :: _ =>
      Ok (sort_values rate_model_name results)
  end.

(** The rows of the report, from the two frequency tables. *)
Definition success_rate_rows (call_connect_df a_intention_df : FrequencyTable)
    : result (list RateRow) :=
  let a_intention_dict := Dict.of_pairs a_intention_df in
  let call_connect_dict := Dict.of_pairs call_connect_df in
  sort_results (fold_left (rate_row a_intention_dict) call_connect_dict []).

(** [calculate_order_success_rate]: any exception, a missing count file
    included, is caught and gives [False]. *)
Definition calculate_order_success_rate : M bool :=
  fun fs =>
    match counts fs a_intention_count_csv, counts fs call_connect_count_csv with
    | Some a_intention_df, Some call_connect_df =>
        match success_rate_rows call_connect_df a_intention_df with
        | Ok results_df => (Ok true, write_final fs results_df)
        | Raise _ => (Ok false, fs)
        end
    | _, _ => (Ok false, fs)
    end.

(** ** The run, from step 3 on

    Steps 1 and 2 of [run_full_process] read the spreadsheet and write
    [call_connect_csv] and [a_intention_csv]; the run is taken from there.
    Each step that returns [False] ends the run with [False]. *)

Definition and_then (step : M bool) (next : M bool) : M bool :=
  fun fs =>
    match step fs with
    | (Ok true, fs') => next fs'
    | (Ok false, fs') => (Ok false, fs')
    | (Raise e, fs') => (Raise e, fs')
    end.

Definition run_full_process : M bool :=
  and_then (process_phone_data call_connect_csv call_connect_model_csv)
  (and_then (count_data_by_model call_connect_model_csv call_connect_count_csv)
  (and_then (process_phone_data a_intention_csv a_intention_model_csv)
  (and_then (count_data_by_model a_intention_model_csv a_intention_count_csv)
            calculate_order_success_rate))).

(** ** Notions the statements use *)

Definition str_eq_dec : forall s t : str, {s = t} + {s <> t} :=
  list_eq_dec N.eq_dec.

(** The sum of the counts of a frequency table. *)
Definition total_count (table : FrequencyTable) : Z :=
  fold_right Z.add 0 (map snd table).

(** A code point a text file can hold once decoded: a Unicode scalar
    value. *)
Definition is_scalar (c : char) : bool :=
  ((c <? 0xD800) || (0xDFFF <? c))%N && (c <? 0x110000)%N.

Definition scalar_str (s : str) : Prop := Forall (fun c => is_scalar c = true) s.

(** A lowercase hexadecimal digit: [0-9a-f]. *)
Definition is_lower_hex (c : char) : bool :=
  ((48 <=? c) && (c <=? 57) || (97 <=? c) && (c <=? 102))%N.

(** A run directory in which no file has been written. *)
Definition no_files : files :=
  mkFiles (fun _ => None) (fun _ => None) (fun _ => None) None.

(** The text files of a run, with nothing produced yet. *)
Definition input_files (base call_connect a_intention : option (list str))
    : files :=
  mkFiles (fun p => match p with
                    | base_data_file => base
                    | call_connect_csv => call_connect
                    | a_intention_csv => a_intention
                    end)
          (fun _ => None) (fun _ => None) None.

(** The triple the specification asks of the matcher for an identifier:
    the identifier, its key, and the model the table has for the key, the
    empty string when it has none. *)
Definition triple_of (table : Dict.dict str) (identifier : str)
    (r : MatchedRecord) : Prop :=
  phone_number r = identifier
  /\ generate_md5 identifier = Ok (phone_md5 r)
  /\ model_name r = match Dict.get table (phone_md5 r) with
                    | Some model => model
                    | None => []
                    end.

(** A lookup file with its header line. *)
Definition header_line : str :=
  lit "mobile_id_md5" ++ [TAB] ++ lit "model_name" ++ [LF].

(** A run whose lookup file has a header and no data, and whose connect
    file has one identifier. *)
Definition header_only_run : files :=
  input_files (Some [header_line]) (Some [lit "111" ++ [LF]]) (Some []).

(** The run of the join example of the specification: the table maps the key
    of 111 to model A, and the connect file has 111 and 222. *)
Definition join_run : files :=
  input_files
    (Some [header_line;
           lit "698d51a19d8a121ce581499d7b701668" ++ [TAB] ++ lit "A" ++ [LF]])
    (Some [lit "111" ++ [LF]; lit "222" ++ [LF]])
    (Some []).

(** The lookup table as the specification words it.  A line gives an
    entry when it has at least two fields between tabs: the first field
    mapped to the second, the other fields ignored.  The fields are those of
    the line as the loader sees it, without the white space around it. *)
Definition entry_of (line : str) : list (str * str) :=
  match split TAB (strip line) with
  | key :: model :: _ => [(key, model)]
  | _ => []
  end.

(** The entries of the data lines, in the order of the file. *)
Definition entries (lines : list str) : list (str * str) :=
  flat_map entry_of lines.


(** ** The rest of the run *)

(** The model a phone number is given by a lookup table: the entry of its
    key, the empty string without one. *)
Definition lookup_model (table : Dict.dict str) (phone : str) : str :=
  match generate_md5 phone with
  | Ok key => Dict.get_default table key []
  | Raise _ => []
  end.

(** The models of the phone numbers of a source file, in the order of the
    file. *)
Definition source_models (table : Dict.dict str) (lines : list str)
    : list str :=
  map (lookup_model table) (read_phone_numbers lines).

(** [run_full_process] with its [success] flag.  The flag starts [True];
    a step that returns [False] clears it before the run returns [False];
    an exception leaves it as it is.  [finally] hands the flag to
    [write_processing_info], which writes it as the status of the run:
    the second component is that status. *)
Definition flagged (step : M bool)
    (next : files -> result bool * files * bool)
    : files -> result bool * files * bool :=
  fun fs =>
    match step fs with
    | (Ok true, fs') => next fs'
    | (Ok false, fs') => (Ok false, fs', false)
    | (Raise e, fs') => (Raise e, fs', true)
    end.

Definition run_with_status : files -> result bool * files * bool :=
  flagged (process_phone_data call_connect_csv call_connect_model_csv)
  (flagged (count_data_by_model call_connect_model_csv call_connect_count_csv)
  (flagged (process_phone_data a_intention_csv a_intention_model_csv)
  (flagged (count_data_by_model a_intention_model_csv a_intention_count_csv)
  (flagged calculate_order_success_rate
           (fun fs => (Ok true, fs, true)))))).

(** ** [FileManager]: the paths of a run

    [os.path.join] is the one of POSIX.  The time stamp the directory name
    carries is read from the clock; it is an argument here. *)

Module FileManager.

Definition SLASH : char := 47%N.
Definition UNDERSCORE : char := 95%N.

Definition startswith (c : char) (s : str) : bool :=
  match s with
  | [] => false
  | x :: _ => (x =? c)%N
  end.

Definition endswith (c : char) (s : str) : bool := startswith c (rev s).

(** [os.path.join(path, b)]: an absolute [b] replaces [path]; otherwise [b]
    is appended, after a separator unless [path] is empty or ends with
    one. *)
Definition join (path b : str) : str :=
  if startswith SLASH b then b
  else if PyStr.eqb path [] || endswith SLASH path then path ++ b
  else path ++ [SLASH] ++ b.

(** [_create_unique_output_dir]: the prefix, the time stamp and the first
    eight digits of the digest of the two input names, under the current
    directory. *)
Definition create_unique_output_dir (base_data_file excel_file : str)
    (prefix timestamp : str) : result str :=
  let file_info := base_data_file ++ [UNDERSCORE] ++ excel_file in
  digest <- generate_md5 file_info ;;
  let file_hash := firstn 8 digest in
  let dir_name :=
    prefix ++ [UNDERSCORE] ++ timestamp ++ [UNDERSCORE] ++ file_hash in
  Ok (join (lit ".") dir_name).

Record paths : Type := mkPaths {
  output_dir : str;
  intermediate_dir : str;
  final_output_file : str;
  processing_info_file : str;
  call_connect_csv : str;
  a_intention_csv : str;
  call_connect_model_csv : str;
  call_connect_count_csv : str;
  a_intention_model_csv : str;
  a_intention_count_csv : str
}.

(** [FileManager.__init__], for the paths it sets. *)
Definition init (base_data_file excel_file : str) (prefix timestamp : str)
    : result paths :=
  output_dir <-
    create_unique_output_dir base_data_file excel_file prefix timestamp ;;
  let intermediate_dir := join output_dir (lit "intermediate") in
  Ok (mkPaths output_dir intermediate_dir
        (join output_dir (lit "order_success_rate_results.csv"))
        (join output_dir (lit "processing_info.txt"))
        (join intermediate_dir (lit "call_connect.csv"))
        (join intermediate_dir (lit "A_intention.csv"))
        (join intermediate_dir (lit "call_connect_model.csv"))
        (join intermediate_dir (lit "call_connect_model_count.csv"))
        (join intermediate_dir (lit "A_intention_model.csv"))
        (join intermediate_dir (lit "A_intention_model_count.csv"))).

(** The files a run writes, as [get_output_files] lists them without the
    two directories. *)
Definition output_files (p : paths) : list str :=
  [call_connect_csv p; a_intention_csv p; call_connect_model_csv p;
   call_connect_count_csv p; a_intention_model_csv p;
   a_intention_count_csv p; final_output_file p; processing_info_file p].

End FileManager.

(** * Properties *)

(** ** The digest on known values *)

Example md5_empty :
  generate_md5 (lit "") = Ok (lit "d41d8cd98f00b204e9800998ecf8427e").
Proof. vm_compute. reflexivity. Qed.

Example md5_abc :
  generate_md5 (lit "abc") = Ok (lit "900150983cd24fb0d6963f7d28e17f72").
Proof. vm_compute. reflexivity. Qed.

Example md5_phone :
  generate_md5 (lit "13800138000") = Ok (lit "7945bd83237335e5376ff44d62e4f0ae").
Proof. vm_compute. reflexivity. Qed.

Example md5_two_blocks :
  generate_md5 (repeat 97%N 56) = Ok (lit "3b0c8ac703f828b04c6c197006d17218").
Proof. vm_compute. reflexivity. Qed.

Example md5_non_ascii :
  generate_md5 [0x4E2D%N; 0x1F600%N] = Ok (lit "488a991aeb4779a65ce7b8aa52f480db").
Proof. vm_compute. reflexivity. Qed.

(** ** Strings: equality and order *)

Lemma eqb_eq (s t : str) : eqb s t = true <-> s = t.
Proof.
  revert t. induction s as [|c s IH]; intros [|d t]; simpl; try easy.
  rewrite andb_true_iff, N.eqb_eq, IH. split.
  - intros [-> ->]. reflexivity.
  - intros H. injection H as -> ->. auto.
Qed.

Lemma eqb_refl (s : str) : eqb s s = true.
Proof. apply eqb_eq. reflexivity. Qed.

Lemma eqb_neq (s t : str) : eqb s t = false <-> s <> t.
Proof.
  rewrite <- eqb_eq. destruct (eqb s t); split; congruence.
Qed.

Lemma leb_refl (s : str) : leb s s = true.
Proof.
  induction s as [|c s IH]; simpl; [reflexivity|].
  rewrite N.eqb_refl, IH. apply orb_true_r.
Qed.

Lemma leb_total (s t : str) : leb s t = true \/ leb t s = true.
Proof.
  revert t. induction s as [|c s IH]; intros [|d t]; simpl; auto.
  destruct (N.ltb_spec c d); simpl; [left; reflexivity|].
  destruct (N.ltb_spec d c); simpl; [right; reflexivity|].
  assert (c = d) as -> by lia.
  rewrite N.eqb_refl. simpl. apply IH.
Qed.

Lemma leb_trans (s t u : str) :
  leb s t = true -> leb t u = true -> leb s u = true.
Proof.
  revert t u. induction s as [|c s IH]; intros [|d t] [|e u]; simpl; try easy.
  rewrite !orb_true_iff, !andb_true_iff, !N.ltb_lt, !N.eqb_eq.
  intros [H1 | [-> H1]] [H2 | [-> H2]].
  - left. lia.
  - left. exact H1.
  - left. exact H2.
  - right. split; [reflexivity | eapply IH; eassumption].
Qed.

Lemma leb_antisym (s t : str) :
  leb s t = true -> leb t s = true -> s = t.
Proof.
  revert t. induction s as [|c s IH]; intros [|d t]; simpl; try easy.
  rewrite !orb_true_iff, !andb_true_iff, !N.ltb_lt, !N.eqb_eq.
  intros [H1 | [-> H1]] [H2 | [E H2]]; try lia.
  f_equal. apply IH; assumption.
Qed.

(** ** Dictionaries *)

Section DictFacts.
Context {V : Type}.
Implicit Types (d : Dict.dict V) (k : str) (v : V).

Lemma get_set_same d k v : Dict.get (Dict.set d k v) k = Some v.
Proof.
  induction d as [|[k' v'] d IH]; simpl.
  - rewrite eqb_refl. reflexivity.
  - destruct (eqb k' k) eqn:E; simpl; rewrite E; auto.
Qed.

Lemma get_set_other d k k' v :
  k <> k' -> Dict.get (Dict.set d k v) k' = Dict.get d k'.
Proof.
  intros Hne. induction d as [|[k0 v0] d IH]; simpl.
  - apply eqb_neq in Hne. rewrite Hne. reflexivity.
  - destruct (eqb k0 k) eqn:E; simpl.
    + apply eqb_eq in E. subst k0.
      apply eqb_neq in Hne. rewrite Hne. reflexivity.
    + rewrite IH. reflexivity.
Qed.

Lemma keys_set d k v k' :
  In k' (Dict.keys (Dict.set d k v)) <-> k' = k \/ In k' (Dict.keys d).
Proof.
  unfold Dict.keys. induction d as [|[k0 v0] d IH]; simpl.
  - intuition.
  - destruct (eqb k0 k) eqn:E; simpl.
    + apply eqb_eq in E. subst k0. intuition.
    + rewrite IH. intuition.
Qed.

Lemma NoDup_keys_set d k v :
  NoDup (Dict.keys d) -> NoDup (Dict.keys (Dict.set d k v)).
Proof.
  unfold Dict.keys. induction d as [|[k0 v0] d IH]; simpl; intros Hnd.
  - constructor; [intros [] | constructor].
  - inversion Hnd as [|? ? Hnotin Hnd']; subst.
    destruct (eqb k0 k) eqn:E; simpl.
    + constructor; assumption.
    + constructor; [|auto].
      intros Hin. apply (keys_set d k v k0) in Hin.
      destruct Hin as [-> | Hin]; [|auto].
      rewrite eqb_refl in E. discriminate.
Qed.

Lemma get_None d k : Dict.get d k = None <-> ~ In k (Dict.keys d).
Proof.
  unfold Dict.keys. induction d as [|[k0 v0] d IH]; simpl.
  - intuition.
  - destruct (eqb k0 k) eqn:E.
    + apply eqb_eq in E. subst. split; [discriminate | intuition].
    + apply eqb_neq in E. rewrite IH. intuition.
Qed.

Lemma get_Some_In d k v :
  NoDup (Dict.keys d) -> (Dict.get d k = Some v <-> In (k, v) d).
Proof.
  unfold Dict.keys. induction d as [|[k0 v0] d IH]; simpl; intros Hnd.
  - split; [discriminate | intros []].
  - inversion Hnd as [|? ? Hnotin Hnd']; subst.
    destruct (eqb k0 k) eqn:E.
    + apply eqb_eq in E. subst k0. split.
      * intros H. injection H as ->. left. reflexivity.
      * intros [H | H]; [congruence|].
        exfalso. apply Hnotin. apply (in_map fst) in H. exact H.
    + apply eqb_neq in E. rewrite (IH Hnd'). split; [auto|].
      intros [H | H]; [congruence | exact H].
Qed.


Lemma fold_set_keys (l : list (str * V)) d k :
  In k (Dict.keys (fold_left (fun d kv => Dict.set d (fst kv) (snd kv)) l d))
  <-> In k (Dict.keys d) \/ In k (map fst l).
Proof.
  revert d. induction l as [|[k0 v0] l IH]; intros d; simpl.
  - intuition.
  - rewrite IH, keys_set. intuition.
Qed.

Lemma fold_set_NoDup (l : list (str * V)) d :
  NoDup (Dict.keys d) ->
  NoDup (Dict.keys (fold_left (fun d kv => Dict.set d (fst kv) (snd kv)) l d)).
Proof.
  revert d. induction l as [|[k0 v0] l IH]; intros d Hnd; simpl; [exact Hnd|].
  apply IH, NoDup_keys_set, Hnd.
Qed.


Lemma of_pairs_keys (l : list (str * V)) k :
  In k (Dict.keys (Dict.of_pairs l)) <-> In k (map fst l).
Proof. unfold Dict.of_pairs. rewrite fold_set_keys. simpl. intuition. Qed.

Lemma of_pairs_NoDup (l : list (str * V)) :
  NoDup (Dict.keys (Dict.of_pairs l)).
Proof. apply fold_set_NoDup. constructor. Qed.


End DictFacts.

(** ** Sorting *)

Section SortPerm.
Context {A : Type}.
Variable rle : A -> A -> bool.

Lemma insert_by_perm (x : A) (l : list A) :
  Permutation (insert_by rle x l) (x :: l).
Proof.
  induction l as [|y l IH]; simpl; [reflexivity|].
  destruct (rle x y); [reflexivity|].
  rewrite IH. apply perm_swap.
Qed.

Lemma sort_by_perm (l : list A) : Permutation (sort_by rle l) l.
Proof.
  induction l as [|x l IH]; simpl; [reflexivity|].
  rewrite insert_by_perm, IH. reflexivity.
Qed.

Lemma sort_by_In (l : list A) (x : A) : In x (sort_by rle l) <-> In x l.
Proof.
  split; apply Permutation_in;
    [apply sort_by_perm | symmetry; apply sort_by_perm].
Qed.

Lemma sort_by_length (l : list A) :
  List.length (sort_by rle l) = List.length l.
Proof. apply Permutation_length, sort_by_perm. Qed.

Lemma sort_by_nil_inv (l : list A) : sort_by rle l = [] -> l = [].
Proof.
  intros H. apply Permutation_nil. rewrite <- H.
  apply sort_by_perm.
Qed.
End SortPerm.

(** Sorting rows on a column of strings. *)
Section SortOnKey.
Context {A : Type}.
Variable key : A -> str.

Lemma insert_by_sorted (x : A) (l : list A) :
  Sorted (key_le key) l -> Sorted (key_le key) (insert_by (key_leb key) x l).
Proof.
  induction l as [|y l IH]; simpl; intros Hs.
  - repeat constructor.
  - unfold key_leb at 1. destruct (leb (key x) (key y)) eqn:E.
    + constructor; [exact Hs | constructor; exact E].
    + inversion Hs as [|? ? Hs' Hhd]; subst.
      constructor; [apply IH; exact Hs'|].
      assert (Hyx : (key_le key) y x).
      { destruct (leb_total (key x) (key y)) as [H | H];
          [congruence | exact H]. }
      destruct l as [|z l]; simpl.
      * constructor. exact Hyx.
      * unfold key_leb at 1. destruct (leb (key x) (key z)).
        -- constructor. exact Hyx.
        -- inversion Hhd; subst. constructor. assumption.
Qed.

Lemma sort_by_sorted (l : list A) : Sorted (key_le key) (sort_by (key_leb key) l).
Proof.
  induction l as [|x l IH]; simpl; [constructor|].
  apply insert_by_sorted, IH.
Qed.

Lemma key_le_trans : Relations_1.Transitive (key_le key).
Proof. intros x y z. unfold key_le, le. apply leb_trans. Qed.

Lemma sort_by_strongly_sorted (l : list A) :
  StronglySorted (key_le key) (sort_by (key_leb key) l).
Proof. apply Sorted_StronglySorted; [exact key_le_trans | apply sort_by_sorted]. Qed.

(** Rows with distinct keys have one sorted arrangement. *)
Lemma strongly_sorted_unique (l l' : list A) :
  NoDup (map key l) ->
  StronglySorted (key_le key) l -> StronglySorted (key_le key) l' ->
  Permutation l l' -> l = l'.
Proof.
  revert l'. induction l as [|a l IH]; intros l' Hnd Hs Hs' Hp.
  - apply Permutation_nil in Hp. subst. reflexivity.
  - destruct l' as [|b l'].
    { symmetry in Hp. apply Permutation_nil in Hp. discriminate. }
    apply StronglySorted_inv in Hs. destruct Hs as [Hs Ha].
    apply StronglySorted_inv in Hs'. destruct Hs' as [Hs' Hb].
    rewrite Forall_forall in Ha, Hb.
    simpl in Hnd. inversion Hnd as [|? ? Hnotin Hnd']; subst.
    assert (Hab : a = b).
    { assert (Hina : In a (b :: l')) by (eapply Permutation_in; [exact Hp | left; reflexivity]).
      assert (Hinb : In b (a :: l)) by (eapply Permutation_in; [symmetry; exact Hp | left; reflexivity]).
      destruct Hina as [-> | Hina]; [reflexivity|].
      destruct Hinb as [-> | Hinb]; [reflexivity|].
      exfalso. apply Hnotin.
      assert (key a = key b) as ->
        by (apply leb_antisym; [apply Ha, Hinb | apply Hb, Hina]).
      apply in_map, Hinb. }
    subst b. f_equal.
    apply IH; auto. eapply Permutation_cons_inv. exact Hp.
Qed.

(** The sorted table does not depend on the order of the rows it is made
    from, when the keys differ two by two. *)
Lemma sort_by_perm_unique (l l' : list A) :
  NoDup (map key l) -> Permutation l l' ->
  sort_by (key_leb key) l = sort_by (key_leb key) l'.
Proof.
  intros Hnd Hp. apply strongly_sorted_unique.
  - eapply Permutation_NoDup; [|exact Hnd].
    apply Permutation_map. symmetry. apply sort_by_perm.
  - apply sort_by_strongly_sorted.
  - apply sort_by_strongly_sorted.
  - rewrite !sort_by_perm. exact Hp.
Qed.

Lemma sort_by_NoDup (l : list A) :
  NoDup (map key l) -> NoDup (map key (sort_by (key_leb key) l)).
Proof.
  intros Hnd. eapply Permutation_NoDup; [|exact Hnd].
  apply Permutation_map. symmetry. apply sort_by_perm.
Qed.
End SortOnKey.

(** ** Rate calculator *)

Lemma fold_rate_row (a_intention_dict : Dict.dict Z) (d : Dict.dict Z)
    (results : list RateRow) :
  fold_left (rate_row a_intention_dict) d results
  = results ++ flat_map (rate_row a_intention_dict []) d.
Proof.
  revert results. induction d as [|[m c] d IH]; intros results; simpl.
  - rewrite app_nil_r. reflexivity.
  - rewrite IH. rewrite <- app_assoc. reflexivity.
Qed.

Lemma rate_rows_models (a_intention_dict : Dict.dict Z) (d : Dict.dict Z) :
  map rate_model_name (flat_map (rate_row a_intention_dict []) d) = map fst d.
Proof.
  induction d as [|[m c] d IH]; simpl; [reflexivity|].
  rewrite IH. reflexivity.
Qed.

Lemma of_pairs_nil_inv {V : Type} (l : list (str * V)) :
  Dict.of_pairs l = [] -> l = [].
Proof.
  destruct l as [|[k v] l]; [reflexivity|]. intros H. exfalso.
  assert (Hin : In k (Dict.keys (Dict.of_pairs ((k, v) :: l))))
    by (apply of_pairs_keys; left; reflexivity).
  rewrite H in Hin. exact Hin.
Qed.

(** The rows before sorting, and what [sort_results] makes of them. *)
Lemma success_rate_rows_unfold (connect intention : FrequencyTable) :
  success_rate_rows connect intention
  = sort_results (flat_map (rate_row (Dict.of_pairs intention) [])
                           (Dict.of_pairs connect)).
Proof. unfold success_rate_rows. rewrite fold_rate_row. reflexivity. Qed.

Lemma success_rate_rows_raise (connect intention : FrequencyTable) (e : exn) :
  success_rate_rows connect intention = Raise e -> connect = [].
Proof.
  rewrite success_rate_rows_unfold. unfold sort_results.
  destruct (flat_map _ _) as [|r rs] eqn:E; [|discriminate]. intros _.
  apply (f_equal (map rate_model_name)) in E.
  rewrite rate_rows_models in E. simpl in E.
  apply map_eq_nil in E. apply of_pairs_nil_inv in E. exact E.
Qed.

Lemma success_rate_rows_ok (connect intention : FrequencyTable)
    (rows : list RateRow) :
  success_rate_rows connect intention = Ok rows ->
  rows = sort_values rate_model_name
           (flat_map (rate_row (Dict.of_pairs intention) [])
                     (Dict.of_pairs connect))
  /\ connect <> [].
Proof.
  rewrite success_rate_rows_unfold. unfold sort_results.
  destruct (flat_map _ _) as [|r rs] eqn:E; [discriminate|].
  intros H. injection H as <-. split; [reflexivity|].
  intros ->. discriminate.
Qed.


(** The report file is written exactly when the rows could be sorted. *)
Lemma calculate_order_success_rate_report (fs : files)
    (connect intention : FrequencyTable) :
  counts fs call_connect_count_csv = Some connect ->
  counts fs a_intention_count_csv = Some intention ->
  calculate_order_success_rate fs
  = match success_rate_rows connect intention with
    | Ok rows => (Ok true, write_final fs rows)
    | Raise _ => (Ok false, fs)
    end.
Proof.
  intros Hc Hi. unfold calculate_order_success_rate. rewrite Hc, Hi.
  reflexivity.
Qed.

(** C1: the report has exactly one row per model of the connect table, and
    no row for a model that is only in the intention table.  The one case
    without a report is the empty connect table, on which the sort of the
    empty frame raises. *)
Theorem C1_one_row_per_connect_model (connect intention : FrequencyTable) :
  match success_rate_rows connect intention with
  | Ok rows =>
      NoDup (map rate_model_name rows)
      /\ (forall m, In m (map rate_model_name rows) <-> In m (map fst connect))
  | Raise _ => connect = []
  end.
Proof.
  destruct (success_rate_rows connect intention) as [rows|e] eqn:E.
  - apply success_rate_rows_ok in E. destruct E as [-> _].
    unfold sort_values. split.
    + apply sort_by_NoDup. rewrite rate_rows_models. apply of_pairs_NoDup.
    + intros m. rewrite <- (of_pairs_keys connect m). unfold Dict.keys.
      rewrite <- (rate_rows_models (Dict.of_pairs intention)).
      split; apply Permutation_in, Permutation_map;
        [apply sort_by_perm | symmetry; apply sort_by_perm].
  - eapply success_rate_rows_raise. exact E.
Qed.

(** The one-sided join of the specification: model B, which is only in the
    intention table, has no row. *)
Example one_sided_join :
  success_rate_rows [(lit "A", 5)] [(lit "A", 2); (lit "B", 7)]
  = Ok [mkRate (lit "A") 2 5 (2 # 5)].
Proof. vm_compute. reflexivity. Qed.



(** The rate formula and the zero-intention case of the specification. *)
Example rate_formula :
  success_rate_rows [(lit "A", 10)] [(lit "A", 3)]
  = Ok [mkRate (lit "A") 3 10 (3 # 10)].
Proof. vm_compute. reflexivity. Qed.

Example zero_intention :
  success_rate_rows [(lit "A", 5)] []
  = Ok [mkRate (lit "A") 0 5 (0 # 5)] /\ (0 # 5 == 0)%Q.
Proof. split; vm_compute; reflexivity. Qed.

(** ** Aggregator *)

Lemma ne_empty_read_field (s : str) : ne_empty (read_field s) = true.
Proof. destruct s; reflexivity. Qed.

(** The column the counting sees: no row of the match file is filtered out
    by [!= ''], since an empty field has been read as [NaN]. *)
Lemma counted_column (rows : list MatchedRecord) :
  filter ne_empty (model_name_column rows) = model_name_column rows.
Proof.
  unfold model_name_column. induction rows as [|r rows IH]; simpl.
  - reflexivity.
  - rewrite ne_empty_read_field, IH. reflexivity.
Qed.

Lemma total_count_perm (t t' : FrequencyTable) :
  Permutation t t' -> total_count t = total_count t'.
Proof.
  unfold total_count. induction 1 as [| [m c] l l' _ IH | [m c] [m' c'] l | ];
    simpl in *; lia.
Qed.

Lemma total_count_tally (d : Dict.dict Z) (s : str) :
  total_count (Dict.set d s (Dict.get_default d s 0 + 1)) = total_count d + 1.
Proof.
  unfold total_count, Dict.get_default.
  induction d as [|[k v] d IH]; simpl.
  - lia.
  - destruct (eqb k s); simpl; lia.
Qed.

(** Number of rows of a match file with a model. *)
Lemma matched_rows_le (rows : list MatchedRecord) :
  (List.length (filter (fun r => truthy (model_name r)) rows)
   <= List.length rows)%nat.
Proof. apply filter_length_le. Qed.


Section Tally.
Implicit Types (rows : list MatchedRecord) (d : Dict.dict Z) (m : str).

Lemma tally_total (rows : list MatchedRecord) (d : Dict.dict Z) :
  total_count (fold_left tally (model_name_column rows) d)
  = total_count d
    + Z.of_nat (List.length (filter (fun r => truthy (model_name r)) rows)).
Proof.
  revert d. induction rows as [|r rows IH]; intros d; simpl.
  - lia.
  - rewrite IH. destruct (model_name r) as [|c s]; simpl.
    + lia.
    + rewrite total_count_tally. lia.
Qed.

Lemma tally_keys (rows : list MatchedRecord) (d : Dict.dict Z) (m : str) :
  In m (Dict.keys (fold_left tally (model_name_column rows) d))
  <-> In m (Dict.keys d) \/ (m <> [] /\ In m (map model_name rows)).
Proof.
  revert d. induction rows as [|r rows IH]; intros d; simpl.
  - intuition.
  - rewrite IH. destruct (model_name r) as [|c s] eqn:E; simpl.
    + intuition. subst. congruence.
    + rewrite keys_set. intuition (subst; auto; try congruence).
Qed.

Lemma tally_NoDup (rows : list MatchedRecord) (d : Dict.dict Z) :
  NoDup (Dict.keys d) ->
  NoDup (Dict.keys (fold_left tally (model_name_column rows) d)).
Proof.
  revert d. induction rows as [|r rows IH]; intros d Hnd; simpl.
  - exact Hnd.
  - apply IH. destruct (model_name r); simpl;
      [exact Hnd | apply NoDup_keys_set, Hnd].
Qed.

Lemma tally_count (rows : list MatchedRecord) (d : Dict.dict Z) (m : str) :
  m <> [] ->
  Dict.get_default (fold_left tally (model_name_column rows) d) m 0
  = Dict.get_default d m 0
    + Z.of_nat (count_occ str_eq_dec (map model_name rows) m).
Proof.
  intros Hm. revert d. unfold model_name_column.
  induction rows as [|r rows IH]; intros d; cbn [map fold_left].
  - simpl. lia.
  - rewrite IH. destruct (str_eq_dec (model_name r) m) as [Heq | Hne].
    + rewrite (count_occ_cons_eq _ _ Heq). subst m.
      destruct (model_name r) as [|c s]; [congruence|]. simpl.
      unfold Dict.get_default at 1. rewrite get_set_same. lia.
    + rewrite (count_occ_cons_neq _ _ Hne).
      destruct (model_name r) as [|c s]; simpl; [reflexivity|].
      unfold Dict.get_default at 1.
      rewrite get_set_other by exact Hne. reflexivity.
Qed.
End Tally.

(** The table of the aggregator is the tally of the model column, in another
    order. *)
Lemma model_counts_perm (rows : list MatchedRecord) :
  Permutation (model_counts rows)
              (fold_left tally (model_name_column rows) []).
Proof.
  unfold model_counts, sort_values, value_counts.
  rewrite counted_column, !sort_by_perm. reflexivity.
Qed.

(** The order in which [value_counts] lists the values does not show in the
    table. *)
Lemma model_counts_order_free (rows : list MatchedRecord) :
  model_counts rows
  = sort_values fst (fold_left tally (model_name_column rows) []).
Proof.
  unfold model_counts, sort_values, value_counts. rewrite counted_column.
  symmetry. apply sort_by_perm_unique.
  - apply (tally_NoDup rows []). constructor.
  - symmetry. apply sort_by_perm.
Qed.

Lemma model_counts_NoDup (rows : list MatchedRecord) :
  NoDup (map fst (model_counts rows)).
Proof.
  eapply Permutation_NoDup.
  - apply Permutation_map. symmetry. apply model_counts_perm.
  - apply (tally_NoDup rows []). constructor.
Qed.

Lemma model_counts_In (rows : list MatchedRecord) (m : str) (c : Z) :
  In (m, c) (model_counts rows)
  <-> m <> [] /\ In m (map model_name rows)
      /\ c = Z.of_nat (count_occ str_eq_dec (map model_name rows) m).
Proof.
  set (d := fold_left tally (model_name_column rows) []).
  assert (Hnd : NoDup (Dict.keys d)) by (apply (tally_NoDup rows []); constructor).
  assert (Hiff : In (m, c) (model_counts rows) <-> In (m, c) d).
  { split; apply Permutation_in;
      [apply model_counts_perm | symmetry; apply model_counts_perm]. }
  rewrite Hiff, <- (get_Some_In d m c Hnd).
  pose proof (tally_keys rows [] m) as Hk. fold d in Hk. simpl in Hk.
  split.
  - intros Hget.
    assert (Hin : In m (Dict.keys d)).
    { destruct (in_dec str_eq_dec m (Dict.keys d)) as [H | H]; [exact H|].
      apply get_None in H. congruence. }
    apply Hk in Hin. destruct Hin as [[] | [Hm Hin]].
    repeat split; try assumption.
    pose proof (tally_count rows [] m Hm) as Hc. fold d in Hc.
    unfold Dict.get_default in Hc. rewrite Hget in Hc. simpl in Hc. lia.
  - intros (Hm & Hin & ->).
    assert (Hkey : In m (Dict.keys d)) by (apply Hk; right; split; assumption).
    destruct (Dict.get d m) as [v|] eqn:Hget.
    + pose proof (tally_count rows [] m Hm) as Hc. fold d in Hc.
      unfold Dict.get_default in Hc. rewrite Hget in Hc. simpl in Hc.
      f_equal. lia.
    + apply get_None in Hget. contradiction.
Qed.


Lemma model_counts_total (rows : list MatchedRecord) :
  total_count (model_counts rows)
  = Z.of_nat (List.length (filter (fun r => truthy (model_name r)) rows)).
Proof.
  rewrite (total_count_perm _ _ (model_counts_perm rows)).
  rewrite tally_total. reflexivity.
Qed.



(** The aggregation of the specification, whatever the identifiers and
    keys of the records. *)
Example aggregation (p1 h1 p2 h2 p3 h3 : str) :
  model_counts [mkMatched p1 h1 (lit "A"); mkMatched p2 h2 (lit "A");
                mkMatched p3 h3 []]
  = [(lit "A", 2)].
Proof. reflexivity. Qed.

Example aggregation_sorts :
  model_counts [mkMatched [] [] (lit "b"); mkMatched [] [] (lit "B");
                mkMatched [] [] (lit "a"); mkMatched [] [] (lit "b")]
  = [(lit "B", 1); (lit "a", 1); (lit "b", 2)].
Proof. reflexivity. Qed.



(** Adjacent rows, spelled out: in a sorted table the model of a row is at
    most the model of the row after it. *)
Lemma sorted_adjacent {A : Type} (key : A -> str) (l1 l2 : list A) (r1 r2 : A) :
  Sorted (key_le key) (l1 ++ r1 :: r2 :: l2) -> le (key r1) (key r2).
Proof.
  induction l1 as [|x l1 IH]; simpl; intros Hs.
  - inversion Hs as [|? ? _ Hhd]; subst. inversion Hhd; subst. assumption.
  - inversion Hs; subst. apply IH. assumption.
Qed.

(** ** Hasher *)

Lemma encode_char_scalar (c : char) :
  is_scalar c = true -> exists bs, Utf8.encode_char c = Ok bs.
Proof.
  unfold is_scalar, Utf8.encode_char. intros H.
  apply andb_true_iff in H. destruct H as [H1 H2].
  apply orb_true_iff in H1. rewrite !N.ltb_lt in H1. apply N.ltb_lt in H2.
  destruct (N.ltb_spec c 0x80); [eexists; reflexivity|].
  destruct (N.ltb_spec c 0x800); [eexists; reflexivity|].
  destruct (N.ltb_spec c 0x10000).
  - destruct (N.leb_spec 0xD800 c); simpl; [|eexists; reflexivity].
    destruct (N.leb_spec c 0xDFFF); simpl; [lia | eexists; reflexivity].
  - destruct (N.ltb_spec c 0x110000); [eexists; reflexivity | lia].
Qed.

Lemma encode_scalar (s : str) :
  scalar_str s -> exists bs, Utf8.encode s = Ok bs.
Proof.
  induction 1 as [|c s Hc _ IH]; simpl.
  - eexists. reflexivity.
  - destruct (encode_char_scalar c Hc) as [bs ->].
    destruct IH as [rest ->]. simpl. eexists. reflexivity.
Qed.

Lemma generate_md5_scalar (s : str) :
  scalar_str s -> exists key, generate_md5 s = Ok key.
Proof.
  intros H. destruct (encode_scalar s H) as [bs Hbs].
  unfold generate_md5. rewrite Hbs. simpl. eexists. reflexivity.
Qed.

(** ** Stripping *)

Lemma in_lstrip (s : str) (c : char) : In c (lstrip s) -> In c s.
Proof.
  induction s as [|d s IH]; simpl; [auto|].
  destruct (isspace d); [right; auto | auto].
Qed.

Lemma in_strip (s : str) (c : char) : In c (strip s) -> In c s.
Proof.
  unfold strip, rstrip. intros H.
  apply in_lstrip. apply in_rev. apply in_lstrip. apply in_rev. exact H.
Qed.

Lemma strip_scalar (s : str) : scalar_str s -> scalar_str (strip s).
Proof.
  unfold scalar_str. rewrite !Forall_forall. intros H c Hc.
  apply H, in_strip, Hc.
Qed.

(** ** Matcher *)

Lemma read_phone_numbers_from (lines : list str) (acc : list str) :
  fold_left
    (fun phone_numbers line =>
       let phone_number := strip line in
       if truthy phone_number then phone_numbers ++ [phone_number]
       else phone_numbers)
    lines acc
  = acc ++ filter truthy (map strip lines).
Proof.
  revert acc. induction lines as [|l lines IH]; intros acc; simpl.
  - rewrite app_nil_r. reflexivity.
  - rewrite IH. destruct (truthy (strip l)); [|reflexivity].
    rewrite <- app_assoc. reflexivity.
Qed.

(** The phone numbers are the stripped lines that are not empty, in the
    order of the file. *)
Lemma read_phone_numbers_eq (lines : list str) :
  read_phone_numbers lines = filter truthy (map strip lines).
Proof. unfold read_phone_numbers. apply read_phone_numbers_from. Qed.

Lemma phone_numbers_scalar (lines : list str) :
  Forall scalar_str lines -> Forall scalar_str (read_phone_numbers lines).
Proof.
  rewrite read_phone_numbers_eq, !Forall_forall. intros H p Hp.
  apply filter_In in Hp. destruct Hp as [Hp _].
  apply in_map_iff in Hp. destruct Hp as (l & <- & Hl).
  apply strip_scalar, H, Hl.
Qed.

Lemma match_phones_spec (table : Dict.dict str) (phone_numbers : list str)
    (output_data : list MatchedRecord) :
  Forall scalar_str phone_numbers ->
  exists output,
    match_phones table output_data phone_numbers = Ok (output_data ++ output)
    /\ Forall2 (triple_of table) phone_numbers output.
Proof.
  intros Hs. revert output_data.
  induction Hs as [|phone rest Hphone _ IH]; intros output_data; simpl.
  - exists []. rewrite app_nil_r. split; [reflexivity | constructor].
  - destruct (generate_md5_scalar phone Hphone) as [key Hkey].
    unfold match_phone. rewrite Hkey. simpl.
    destruct (IH (output_data
                    ++ [mkMatched phone key (Dict.get_default table key [])]))
      as (output & Hrun & Hall).
    exists (mkMatched phone key (Dict.get_default table key []) :: output).
    split.
    + rewrite Hrun, <- app_assoc. reflexivity.
    + constructor; [|exact Hall].
      unfold triple_of. simpl. auto.
Qed.

(** C3: with a lookup table that is not empty, the matcher writes one
    triple per line that is not empty once stripped, in the order of the
    lines and without merging repeated identifiers: the identifier, its key,
    and the model of the table at the key or the empty string.  With an
    empty lookup table it returns [False] and writes nothing. *)
Theorem C3_matcher (fs : files) (phone_csv_file : text_path)
    (output_csv_file : match_path) (lines : list str)
    (table : Dict.dict str) :
  text fs phone_csv_file = Some lines ->
  Forall scalar_str lines ->
  load_model_mappings fs = Ok table ->
  (table = [] ->
   process_phone_data phone_csv_file output_csv_file fs = (Ok false, fs))
  /\ (table <> [] ->
      exists output,
        process_phone_data phone_csv_file output_csv_file fs
        = (Ok true, write_matched fs output_csv_file output)
        /\ Forall2 (triple_of table) (filter truthy (map strip lines)) output).
Proof.
  intros Hfile Hscalar Hload. unfold process_phone_data.
  rewrite Hfile, Hload. split.
  - intros ->. reflexivity.
  - intros Hne. destruct table as [|entry table]; [contradiction|]. simpl.
    destruct (match_phones_spec (entry :: table) (read_phone_numbers lines) []
                (phone_numbers_scalar lines Hscalar)) as (output & Hrun & Hall).
    rewrite Hrun. simpl. exists output. split; [reflexivity|].
    rewrite <- read_phone_numbers_eq. exact Hall.
Qed.

Lemma C3_matcher_witness :
  exists output,
    process_phone_data call_connect_csv call_connect_model_csv join_run
    = (Ok true, write_matched join_run call_connect_model_csv output)
    /\ Forall2 (triple_of [(lit "698d51a19d8a121ce581499d7b701668", lit "A")])
               [lit "111"; lit "222"] output.
Proof.
  refine (proj2 (C3_matcher join_run call_connect_csv call_connect_model_csv
                   [lit "111" ++ [LF]; lit "222" ++ [LF]]
                   [(lit "698d51a19d8a121ce581499d7b701668", lit "A")]
                   eq_refl _ eq_refl) _).
  - repeat constructor.
  - discriminate.
Defined.

(** The join of the specification: 111 is matched to model A, 222 to no
    model. *)
Example join_correctness :
  matched (snd (process_phone_data call_connect_csv call_connect_model_csv
                  join_run)) call_connect_model_csv
  = Some [mkMatched (lit "111") (lit "698d51a19d8a121ce581499d7b701668")
                    (lit "A");
          mkMatched (lit "222") (lit "bcbe3365e6ac95ea2c0343a2395834dd") []].
Proof. vm_compute. reflexivity. Qed.

(** A line repeated in the source gives a triple each time. *)
Example duplicates_kept :
  match_phones [(lit "698d51a19d8a121ce581499d7b701668", lit "A")] []
    (read_phone_numbers [lit "111" ++ [LF]; [LF]; lit " 111 " ++ [LF]])
  = Ok [mkMatched (lit "111") (lit "698d51a19d8a121ce581499d7b701668")
                  (lit "A");
        mkMatched (lit "111") (lit "698d51a19d8a121ce581499d7b701668")
                  (lit "A")].
Proof. vm_compute. reflexivity. Qed.

(** C3 as stated, for every lookup table, fails on the empty one: the
    lookup file has only its header, the source has the line 111, the claim
    asks for one triple with an empty model, and the matcher returns
    [False] without writing a triple. *)
Lemma C3_counterexample :
  text header_only_run call_connect_csv = Some [lit "111" ++ [LF]]
  /\ load_model_mappings header_only_run = Ok []
  /\ process_phone_data call_connect_csv call_connect_model_csv header_only_run
     = (Ok false, header_only_run)
  /\ ~ (exists output,
         process_phone_data call_connect_csv call_connect_model_csv
           header_only_run
         = (Ok true,
            write_matched header_only_run call_connect_model_csv output)
         /\ Forall2 (triple_of [])
                    (filter truthy (map strip [lit "111" ++ [LF]])) output).
Proof.
  split; [reflexivity|]. split; [reflexivity|]. split; [reflexivity|].
  intros (output & Hrun & _).
  apply (f_equal fst) in Hrun. vm_compute in Hrun. discriminate.
Qed.

(** ** Lookup loader *)



Lemma load_line_entry (d : Dict.dict str) (line : str) :
  load_line d line
  = fold_left (fun d kv => Dict.set d (fst kv) (snd kv)) (entry_of line) d.
Proof.
  unfold load_line, entry_of.
  destruct (split TAB (strip line)) as [|key [|model rest]]; reflexivity.
Qed.

Lemma load_lines_entries (lines : list str) (d : Dict.dict str) :
  fold_left load_line lines d
  = fold_left (fun d kv => Dict.set d (fst kv) (snd kv)) (entries lines) d.
Proof.
  revert d. induction lines as [|line lines IH]; intros d; simpl.
  - reflexivity.
  - rewrite fold_left_app, <- load_line_entry. apply IH.
Qed.



(** The header is left out, a line of one field is passed over, a third
    field is ignored, and the later line wins. *)
Example loader_example :
  load_model_mappings
    (input_files
       (Some [header_line;
              lit "k1" ++ [TAB] ++ lit "A" ++ [LF];
              lit "short" ++ [LF];
              lit "k2" ++ [TAB] ++ lit "C" ++ [LF];
              lit "k1" ++ [TAB] ++ lit "B" ++ [TAB] ++ lit "more" ++ [LF]])
       None None)
  = Ok [(lit "k1", lit "B"); (lit "k2", lit "C")].
Proof. vm_compute. reflexivity. Qed.

(** A lookup file without any line: [next(f)] raises. *)
Example loader_no_header :
  load_model_mappings (input_files (Some []) None None) = Raise StopIteration.
Proof. reflexivity. Qed.

(** ** Splitting and stripping *)

Lemma split_no_sep (sep : char) (s : str) :
  ~ In sep s -> split sep s = [s].
Proof.
  induction s as [|c s IH]; simpl; intros Hnot; [reflexivity|].
  destruct (N.eqb_spec c sep) as [-> | Hne]; [exfalso; auto|].
  rewrite IH by auto. reflexivity.
Qed.

Lemma split_at_sep (sep : char) (p q : str) :
  ~ In sep p -> split sep (p ++ sep :: q) = p :: split sep q.
Proof.
  induction p as [|c p IH]; simpl; intros Hnot.
  - rewrite N.eqb_refl. reflexivity.
  - destruct (N.eqb_spec c sep) as [-> | Hne]; [exfalso; auto|].
    rewrite IH by auto. reflexivity.
Qed.

Lemma split_not_nil (sep : char) (s : str) : split sep s <> [].
Proof.
  destruct s as [|c s]; simpl; [discriminate|].
  destruct (c =? sep)%N; [discriminate|].
  destruct (split sep s); discriminate.
Qed.

(** The first occurrence of a character. *)
Lemma first_occurrence (x : char) (p q : str) :
  exists pre post,
    p ++ x :: q = pre ++ x :: post
    /\ ~ In x pre
    /\ (forall c, In c q -> In c post).
Proof.
  induction p as [|c p IH]; simpl.
  - exists [], q. simpl. auto.
  - destruct (N.eq_dec c x) as [-> | Hne].
    + exists [], (p ++ x :: q). simpl. split; [reflexivity|]. split; [auto|].
      intros c Hc. apply in_or_app. right. right. exact Hc.
    + destruct IH as (pre & post & Heq & Hnot & Hsub).
      exists (c :: pre), post. simpl. rewrite Heq.
      split; [reflexivity|]. split; [|exact Hsub].
      intros [H | H]; auto.
Qed.

Lemma first_occurrence_unique (x : char) (p p' q q' : str) :
  p ++ x :: q = p' ++ x :: q' -> ~ In x p -> ~ In x p' -> p = p' /\ q = q'.
Proof.
  revert p'. induction p as [|c p IH]; intros [|c' p']; simpl; intros Heq H H'.
  - injection Heq as ->. auto.
  - injection Heq as <- _. exfalso. auto.
  - injection Heq as -> _. exfalso. auto.
  - injection Heq as -> Heq. destruct (IH p' Heq) as [-> ->]; auto.
Qed.

(** A field separator is in the split string exactly when there are two
    fields or more. *)
Lemma split_two_fields (sep : char) (s : str) :
  (2 <= List.length (split sep s))%nat <-> In sep s.
Proof.
  split.
  - intros Hlen. destruct (in_dec N.eq_dec sep s) as [H | H]; [exact H|].
    rewrite (split_no_sep sep s H) in Hlen. simpl in Hlen. lia.
  - intros Hin. apply in_split in Hin. destruct Hin as (p & q & ->).
    destruct (first_occurrence sep p q) as (pre & post & -> & Hnot & _).
    rewrite split_at_sep by exact Hnot. simpl.
    pose proof (split_not_nil sep post).
    destruct (split sep post); [contradiction | simpl; lia].
Qed.

Lemma lstrip_decomp (s : str) :
  exists a, s = a ++ lstrip s /\ Forall (fun c => isspace c = true) a.
Proof.
  induction s as [|c s IH]; simpl.
  - exists []. split; [reflexivity | constructor].
  - destruct (isspace c) eqn:E.
    + destruct IH as (a & Heq & Ha). exists (c :: a). simpl.
      split; [f_equal; exact Heq | constructor; assumption].
    + exists []. split; [reflexivity | constructor].
Qed.

Lemma lstrip_head (s t : str) (c : char) :
  lstrip s = c :: t -> isspace c = false.
Proof.
  induction s as [|d s IH]; simpl; [discriminate|].
  destruct (isspace d) eqn:E; [exact IH|].
  intros H. injection H as -> _. exact E.
Qed.

Lemma lstrip_nonspace (s : str) (c : char) :
  isspace c = false -> lstrip (c :: s) = c :: s.
Proof. intros H. simpl. rewrite H. reflexivity. Qed.

Lemma rstrip_decomp (s : str) :
  exists b,
    s = rstrip s ++ b
    /\ Forall (fun c => isspace c = true) b
    /\ (rstrip s = []
        \/ exists t c, rstrip s = t ++ [c] /\ isspace c = false).
Proof.
  unfold rstrip. destruct (lstrip_decomp (rev s)) as (a & Heq & Ha).
  exists (rev a). split; [|split].
  - rewrite <- rev_app_distr, <- Heq, rev_involutive. reflexivity.
  - apply Forall_rev. exact Ha.
  - destruct (lstrip (rev s)) as [|c t] eqn:E; [left; reflexivity|].
    right. exists (rev t), c. split; [reflexivity|].
    eapply lstrip_head. exact E.
Qed.

Lemma rstrip_snoc_space (s : str) (c : char) :
  isspace c = true -> rstrip (s ++ [c]) = rstrip s.
Proof.
  intros H. unfold rstrip. rewrite rev_unit. simpl. rewrite H. reflexivity.
Qed.

Lemma rstrip_snoc_nonspace (s : str) (c : char) :
  isspace c = false -> rstrip (s ++ [c]) = s ++ [c].
Proof.
  intros H. unfold rstrip. rewrite rev_unit. simpl. rewrite H.
  simpl. rewrite rev_involutive. reflexivity.
Qed.

(** A tab that survives the stripping of a line is followed, in the line, by
    a character that is not white space. *)
Lemma tab_in_strip (line : str) :
  In TAB (strip line) ->
  exists pre post c,
    line = pre ++ TAB :: post
    /\ ~ In TAB pre
    /\ In c post /\ isspace c = false.
Proof.
  unfold strip. intros Hin.
  destruct (lstrip_decomp line) as (a & Hline & _).
  destruct (rstrip_decomp (lstrip line)) as (b & Hl & _ & Hlast).
  destruct Hlast as [Hnil | (t & c & Ht & Hc)].
  { rewrite Hnil in Hin. destruct Hin. }
  rewrite Ht in Hin. apply in_app_or in Hin.
  destruct Hin as [Hin | [Htab | []]];
    [|rewrite Htab in Hc; vm_compute in Hc; discriminate].
  apply in_split in Hin. destruct Hin as (t1 & t2 & ->).
  assert (Heq : line = (a ++ t1) ++ TAB :: (t2 ++ [c] ++ b)).
  { rewrite Hline at 1. rewrite Hl at 1. rewrite Ht.
    rewrite <- !app_assoc. reflexivity. }
  destruct (first_occurrence TAB (a ++ t1) (t2 ++ [c] ++ b))
    as (pre & post & Heq' & Hnot & Hsub).
  exists pre, post, c. split; [congruence|]. split; [exact Hnot|].
  split; [|exact Hc].
  apply Hsub. apply in_or_app. right. left. reflexivity.
Qed.

Lemma isspace_TAB : isspace TAB = true.
Proof. reflexivity. Qed.

Lemma isspace_LF : isspace LF = true.
Proof. reflexivity. Qed.

Lemma nonspace_no_tab (s : str) :
  Forall (fun c => isspace c = false) s -> ~ In TAB s.
Proof.
  rewrite Forall_forall. intros H Hin. apply H in Hin.
  rewrite isspace_TAB in Hin. discriminate.
Qed.

(** A line without a character that is not white space after its first tab
    leaves the table as it is. *)
Lemma load_line_skips (d : Dict.dict str) (line : str) :
  (forall pre post,
     line = pre ++ TAB :: post -> ~ In TAB pre ->
     Forall (fun c => isspace c = true) post) ->
  load_line d line = d.
Proof.
  intros Hline. unfold load_line.
  destruct (2 <=? List.length (split TAB (strip line)))%nat eqn:E;
    [|reflexivity].
  exfalso. apply Nat.leb_le in E. apply split_two_fields in E.
  apply tab_in_strip in E. destruct E as (pre & post & c & Heq & Hnot & Hc & Hns).
  pose proof (Hline pre post Heq Hnot) as Hall.
  rewrite Forall_forall in Hall. apply Hall in Hc. congruence.
Qed.

Lemma lstrip_app_space (a b : str) :
  Forall (fun c => isspace c = true) a -> lstrip (a ++ b) = lstrip b.
Proof.
  induction 1 as [|c a Hc _ IH]; simpl; [reflexivity|].
  rewrite Hc. exact IH.
Qed.

Lemma rstrip_app_space (s ws : str) :
  Forall (fun c => isspace c = true) ws -> rstrip (s ++ ws) = rstrip s.
Proof.
  intros Hws. unfold rstrip. rewrite rev_app_distr.
  rewrite lstrip_app_space by (apply Forall_rev; exact Hws). reflexivity.
Qed.

Lemma strip_key_tab_tab_extra (key extra ws : str) :
  key <> [] -> Forall (fun c => isspace c = false) key ->
  extra <> [] -> Forall (fun c => isspace c = false) extra ->
  Forall (fun c => isspace c = true) ws ->
  strip (key ++ TAB :: TAB :: extra ++ ws) = key ++ TAB :: TAB :: extra.
Proof.
  intros Hk Hkey He Hextra Hws. unfold strip.
  destruct key as [|c key]; [contradiction|].
  inversion Hkey as [|? ? Hc _]; subst.
  rewrite <- app_comm_cons, (lstrip_nonspace _ c Hc).
  replace (c :: key ++ TAB :: TAB :: extra ++ ws)
    with (((c :: key) ++ TAB :: TAB :: extra) ++ ws)
    by (rewrite <- app_assoc; reflexivity).
  rewrite (rstrip_app_space _ ws Hws).
  destruct (exists_last He) as (e & x & ->).
  assert (Hx : isspace x = false).
  { rewrite Forall_forall in Hextra. apply Hextra.
    apply in_or_app. right. left. reflexivity. }
  replace ((c :: key) ++ TAB :: TAB :: e ++ [x])
    with (((c :: key) ++ TAB :: TAB :: e) ++ [x])
    by (rewrite <- app_assoc; reflexivity).
  apply rstrip_snoc_nonspace. exact Hx.
Qed.

(** C10: the line is stripped before it is split.  A line made of a key
    without a tab, a tab and white space only gives no entry; a line gives
    an entry only if a character that is not white space follows its first
    tab; and a key followed by two tabs and a field, up to the white space
    that ends the line, gives the key the empty model. *)
Theorem C10_trailing_tab :
  (forall (d : Dict.dict str) (key ws : str),
     ~ In TAB key -> Forall (fun c => isspace c = true) ws ->
     load_line d (key ++ TAB :: ws) = d)
  /\ (forall (line k m : str),
        In (k, m) (load_line [] line) ->
        exists pre post c,
          line = pre ++ TAB :: post /\ ~ In TAB pre
          /\ In c post /\ isspace c = false)
  /\ (forall (d : Dict.dict str) (key extra ws : str),
        key <> [] -> Forall (fun c => isspace c = false) key ->
        extra <> [] -> Forall (fun c => isspace c = false) extra ->
        Forall (fun c => isspace c = true) ws ->
        load_line d (key ++ TAB :: TAB :: extra ++ ws) = Dict.set d key []).
Proof.
  split; [|split].
  - intros d key ws Hkey Hws. apply load_line_skips.
    intros pre post Heq Hnot.
    destruct (first_occurrence_unique TAB key pre ws post Heq Hkey Hnot)
      as [_ <-]. exact Hws.
  - intros line k m Hin. unfold load_line in Hin.
    destruct (2 <=? List.length (split TAB (strip line)))%nat eqn:E;
      [|destruct Hin].
    apply Nat.leb_le in E. apply split_two_fields in E.
    apply tab_in_strip. exact E.
  - intros d key extra ws Hk Hkey He Hextra Hws. unfold load_line.
    rewrite (strip_key_tab_tab_extra key extra ws Hk Hkey He Hextra Hws).
    rewrite (split_at_sep TAB key (TAB :: extra) (nonspace_no_tab key Hkey)).
    simpl. reflexivity.
Qed.

Lemma C10_trailing_tab_witness :
  load_line [] (lit "key" ++ TAB :: [SPACE; LF]) = []
  /\ load_line [] (lit "key" ++ TAB :: TAB :: lit "extra" ++ [LF])
     = [(lit "key", [])].
Proof.
  destruct C10_trailing_tab as (Hskip & _ & Hempty). split.
  - apply Hskip.
    + simpl. intuition discriminate.
    + repeat constructor.
  - apply (Hempty [] (lit "key") (lit "extra") [LF]).
    + discriminate.
    + repeat constructor.
    + discriminate.
    + repeat constructor.
    + repeat constructor.
Defined.

(** A tab that only white space precedes is stripped as well: the line has
    one field left and gives no entry. *)
Example leading_tab_line :
  load_line [] ([TAB] ++ lit "A" ++ [LF]) = []
  /\ load_line [] ([SPACE; TAB] ++ lit "A" ++ [LF]) = [].
Proof. split; vm_compute; reflexivity. Qed.

(** The lines of the claim, and a line with a model for comparison. *)
Example trailing_tab_lines :
  load_line [] (lit "key" ++ [TAB; LF]) = []
  /\ load_line [] (lit "key" ++ [TAB; SPACE; SPACE; LF]) = []
  /\ load_line [] (lit "key" ++ [TAB; TAB] ++ lit "extra" ++ [LF])
     = [(lit "key", [])]
  /\ load_line [] (lit "key" ++ [TAB] ++ lit "A" ++ [LF])
     = [(lit "key", lit "A")].
Proof. repeat split; vm_compute; reflexivity. Qed.

(** ** The digest as a key *)

Lemma le_bytes_length (n : nat) (x : Z) : List.length (MD5.le_bytes n x) = n.
Proof.
  revert x. induction n as [|n IH]; intros x; simpl; [reflexivity|].
  rewrite IH. reflexivity.
Qed.

Lemma le_bytes_range (n : nat) (x : Z) :
  Forall (fun b => 0 <= b < 256) (MD5.le_bytes n x).
Proof.
  revert x. induction n as [|n IH]; intros x; simpl; constructor.
  - apply Z.mod_pos_bound. lia.
  - apply IH.
Qed.

Lemma digest_length (msg : list Z) : List.length (MD5.digest msg) = 16%nat.
Proof.
  unfold MD5.digest. cbv zeta.
  rewrite !length_app, !le_bytes_length. reflexivity.
Qed.

Lemma digest_range (msg : list Z) :
  Forall (fun b => 0 <= b < 256) (MD5.digest msg).
Proof.
  unfold MD5.digest. cbv zeta.
  repeat (apply Forall_app; split); apply le_bytes_range.
Qed.

Lemma hex_length (bs : list Z) :
  List.length (MD5.hex bs) = (2 * List.length bs)%nat.
Proof.
  unfold MD5.hex. induction bs as [|b bs IH]; simpl; [reflexivity|].
  rewrite IH. lia.
Qed.

Lemma hex_digit_lower (x : Z) :
  0 <= x < 16 -> is_lower_hex (MD5.hex_digit x) = true.
Proof.
  intros Hx. unfold is_lower_hex, MD5.hex_digit.
  destruct (Z.ltb_spec x 10).
  - apply orb_true_iff. left.
    apply andb_true_iff. split; apply N.leb_le; lia.
  - apply orb_true_iff. right.
    apply andb_true_iff. split; apply N.leb_le; lia.
Qed.

Lemma hex_lower (bs : list Z) :
  Forall (fun b => 0 <= b < 256) bs ->
  Forall (fun c => is_lower_hex c = true) (MD5.hex bs).
Proof.
  unfold MD5.hex. induction 1 as [|b bs Hb _ IH]; simpl; [constructor|].
  constructor; [|constructor; [|exact IH]]; apply hex_digit_lower.
  - split; [apply Z.div_pos; lia | apply Z.div_lt_upper_bound; lia].
  - apply Z.mod_pos_bound. lia.
Qed.



(** The identifier is hashed as it is: white space around it changes the
    key, and so does the case of a letter. *)
Example hasher_verbatim :
  generate_md5 (lit "111") = Ok (lit "698d51a19d8a121ce581499d7b701668")
  /\ generate_md5 (lit " 111") = Ok (lit "0653fddb79d0bc8393258215a2d51d93")
  /\ generate_md5 (lit "abc") <> generate_md5 (lit "ABC").
Proof.
  split; [vm_compute; reflexivity|]. split; [vm_compute; reflexivity|].
  vm_compute. discriminate.
Qed.

(** A character of two bytes in UTF-8. *)
Example md5_two_byte_char :
  generate_md5 [0xE9%N] = Ok (lit "66ddcd97cfdeabb2f6fb8a999b4bc76f").
Proof. vm_compute. reflexivity. Qed.

(** A lone surrogate has no UTF-8 encoding. *)
Example md5_surrogate : generate_md5 [0xD800%N] = Raise UnicodeEncodeError.
Proof. reflexivity. Qed.

(** ** The missing lookup file *)

(** C5: when the lookup file does not exist, the loader does not raise: it
    returns the empty table.  The matcher then returns [False] and writes
    nothing, and the run ends with [False] with every file as it was: no
    match file, no frequency table and no report is produced. *)
Theorem C5_missing_lookup_file (fs : files) :
  text fs base_data_file = None ->
  load_model_mappings fs = Ok []
  /\ (forall phone_csv_file output_csv_file,
        process_phone_data phone_csv_file output_csv_file fs = (Ok false, fs))
  /\ run_full_process fs = (Ok false, fs).
Proof.
  intros Hmissing.
  assert (Hload : load_model_mappings fs = Ok []).
  { unfold load_model_mappings. rewrite Hmissing. reflexivity. }
  assert (Hstep : forall phone_csv_file output_csv_file,
             process_phone_data phone_csv_file output_csv_file fs
             = (Ok false, fs)).
  { intros phone_csv_file output_csv_file. unfold process_phone_data.
    destruct (text fs phone_csv_file); [|reflexivity].
    rewrite Hload. reflexivity. }
  split; [exact Hload|]. split; [exact Hstep|].
  unfold run_full_process, and_then. rewrite Hstep. reflexivity.
Qed.

Lemma C5_missing_lookup_file_witness :
  run_full_process
    (input_files None (Some [lit "111" ++ [LF]]) (Some [lit "111" ++ [LF]]))
  = (Ok false,
     input_files None (Some [lit "111" ++ [LF]]) (Some [lit "111" ++ [LF]])).
Proof.
  apply (C5_missing_lookup_file
           (input_files None (Some [lit "111" ++ [LF]])
                        (Some [lit "111" ++ [LF]]))).
  reflexivity.
Defined.

(** C5 as stated fails on its first half: on a missing lookup file the
    loader returns the empty table, it does not fail with an error. *)
Lemma C5_counterexample :
  text no_files base_data_file = None
  /\ load_model_mappings no_files = Ok []
  /\ load_model_mappings no_files <> Raise FileNotFoundError
  /\ ~ (exists e, load_model_mappings no_files = Raise e).
Proof.
  split; [reflexivity|]. split; [reflexivity|]. split.
  - discriminate.
  - intros [e He]. discriminate.
Qed.

(** A whole run on the files of the join example: both sources are the
    connect source here. *)
Example run_example :
  let '(r, fs) :=
    run_full_process
      (input_files
         (Some [header_line;
                lit "698d51a19d8a121ce581499d7b701668" ++ [TAB] ++ lit "A"
                    ++ [LF]])
         (Some [lit "111" ++ [LF]; lit "222" ++ [LF]; lit "111" ++ [LF]])
         (Some [lit "111" ++ [LF]])) in
  r = Ok true
  /\ counts fs call_connect_count_csv = Some [(lit "A", 2)]
  /\ counts fs a_intention_count_csv = Some [(lit "A", 1)]
  /\ final_output_file fs = Some [mkRate (lit "A") 1 2 (1 # 2)].
Proof. vm_compute. repeat split; reflexivity. Qed.

(** A run in which no connected phone has a model: the connect table is
    empty, the report cannot be sorted, and the run ends with [False]
    without a report. *)
Example run_without_match :
  let '(r, fs) :=
    run_full_process
      (input_files
         (Some [header_line;
                lit "698d51a19d8a121ce581499d7b701668" ++ [TAB] ++ lit "A"
                    ++ [LF]])
         (Some [lit "222" ++ [LF]])
         (Some [lit "111" ++ [LF]])) in
  r = Ok false
  /\ counts fs call_connect_count_csv = Some []
  /\ final_output_file fs = None.
Proof. vm_compute. repeat split; reflexivity. Qed.

(** * Further properties *)

(** ** What stripping leaves *)

Lemma lstrip_all_space (s : str) :
  Forall (fun c => isspace c = true) s -> lstrip s = [].
Proof.
  intros H. rewrite <- (app_nil_r s). rewrite lstrip_app_space by exact H.
  reflexivity.
Qed.

(** A stripped string is empty, or begins and ends with a character that is
    not white space. *)
Lemma strip_ends (s : str) :
  strip s = []
  \/ ((exists c t, strip s = c :: t /\ isspace c = false)
      /\ (exists t c, strip s = t ++ [c] /\ isspace c = false)).
Proof.
  unfold strip.
  destruct (rstrip_decomp (lstrip s)) as (b & Heq & _ & Hlast).
  destruct Hlast as [Hnil | Hlast]; [left; exact Hnil|].
  right. split; [|exact Hlast].
  destruct (rstrip (lstrip s)) as [|c t] eqn:E.
  - destruct Hlast as (t & c & Habs & _). destruct t; discriminate.
  - exists c, t. split; [reflexivity|].
    simpl in Heq. eapply lstrip_head. exact Heq.
Qed.

Lemma strip_empty_iff (s : str) :
  strip s = [] <-> Forall (fun c => isspace c = true) s.
Proof.
  split.
  - intros Hnil. unfold strip in Hnil.
    destruct (lstrip_decomp s) as (a & Hs & Ha).
    destruct (rstrip_decomp (lstrip s)) as (b & Hl & Hb & _).
    rewrite Hnil in Hl. simpl in Hl.
    rewrite Hs, Hl. apply Forall_app. split; assumption.
  - intros H. unfold strip. rewrite (lstrip_all_space s H). reflexivity.
Qed.

(** Nothing is left to strip from a string that begins and ends with a
    character that is not white space. *)
Lemma strip_fixed (s : str) :
  (exists c t, s = c :: t /\ isspace c = false) ->
  (exists t c, s = t ++ [c] /\ isspace c = false) ->
  strip s = s.
Proof.
  intros (c & t & Hs & Hc) (t' & c' & Hs' & Hc'). unfold strip.
  rewrite Hs, (lstrip_nonspace t c Hc), <- Hs, Hs'.
  apply rstrip_snoc_nonspace. exact Hc'.
Qed.

Lemma strip_idempotent (s : str) : strip (strip s) = strip s.
Proof.
  destruct (strip_ends s) as [Hnil | [Hfirst Hlast]].
  - rewrite Hnil. reflexivity.
  - apply strip_fixed; assumption.
Qed.

Lemma truthy_strip (s : str) :
  truthy (strip s) = existsb (fun c => negb (isspace c)) s.
Proof.
  destruct (existsb (fun c => negb (isspace c)) s) eqn:E.
  - apply existsb_exists in E. destruct E as (c & Hin & Hc).
    destruct (strip s) as [|x t] eqn:Hs; [|reflexivity].
    apply strip_empty_iff in Hs. rewrite Forall_forall in Hs.
    apply Hs in Hin. rewrite Hin in Hc. discriminate.
  - assert (Hall : Forall (fun c => isspace c = true) s).
    { apply Forall_forall. intros c Hin.
      destruct (isspace c) eqn:Hc; [reflexivity|]. exfalso.
      assert (Hex : existsb (fun c => negb (isspace c)) s = true).
      { apply existsb_exists. exists c. split; [exact Hin|].
        rewrite Hc. reflexivity. }
      congruence. }
    apply strip_empty_iff in Hall. rewrite Hall. reflexivity.
Qed.

(** ** The phone numbers of a source file *)

Lemma kept_line_trimmed (line : str) :
  truthy (strip line) = true ->
  (exists c t, strip line = c :: t /\ isspace c = false)
  /\ (exists t c, strip line = t ++ [c] /\ isspace c = false).
Proof.
  intros Htruthy. destruct (strip_ends line) as [Hnil | H]; [|exact H].
  rewrite Hnil in Htruthy. discriminate.
Qed.

(** X1: every phone number the matcher reads begins and ends with a
    character that is not white space; in particular none is empty. *)
Theorem phone_numbers_trimmed (lines : list str) :
  Forall (fun phone =>
            (exists c t, phone = c :: t /\ isspace c = false)
            /\ (exists t c, phone = t ++ [c] /\ isspace c = false))
         (read_phone_numbers lines).
Proof.
  rewrite read_phone_numbers_eq. apply Forall_forall. intros phone Hin.
  apply filter_In in Hin. destruct Hin as [Hin Htruthy].
  apply in_map_iff in Hin. destruct Hin as (line & <- & _).
  apply kept_line_trimmed. exact Htruthy.
Qed.

(** X2: a line gives a phone number exactly when it has a character that
    is not white space, and the phone number is the stripped line: lines of
    blanks and tabs are passed over like empty ones. *)
Theorem phone_numbers_of_lines (lines : list str) :
  read_phone_numbers lines
  = map strip (filter (existsb (fun c => negb (isspace c))) lines).
Proof.
  rewrite read_phone_numbers_eq.
  induction lines as [|line lines IH]; simpl; [reflexivity|].
  rewrite truthy_strip.
  destruct (existsb (fun c => negb (isspace c)) line); simpl; rewrite IH;
    reflexivity.
Qed.

(** X3: reading the phone numbers again from what was read changes
    nothing: the identifiers of the match file are already in the form the
    matcher gives them. *)
Theorem read_phone_numbers_idempotent (lines : list str) :
  read_phone_numbers (read_phone_numbers lines) = read_phone_numbers lines.
Proof.
  rewrite (read_phone_numbers_eq (read_phone_numbers lines)).
  rewrite (read_phone_numbers_eq lines).
  induction lines as [|line lines IH]; simpl; [reflexivity|].
  destruct (truthy (strip line)) eqn:Hkept; [|exact IH].
  simpl. rewrite strip_idempotent, Hkept, IH. reflexivity.
Qed.

(** ** The lookup table that is loaded *)

Lemma split_fields_no_sep (sep : char) (s : str) :
  Forall (fun field => ~ In sep field) (split sep s).
Proof.
  induction s as [|c s IH]; simpl.
  - constructor; [intros [] | constructor].
  - destruct (N.eqb_spec c sep) as [-> | Hne].
    + constructor; [intros [] | exact IH].
    + destruct (split sep s) as [|w ws]; [repeat constructor; intros [H | []]; auto|].
      inversion IH as [|? ? Hw Hws]; subst.
      constructor; [|exact Hws]. intros [H | H]; auto.
Qed.

Lemma split_head (sep c : char) (s : str) :
  c <> sep -> exists w ws, split sep (c :: s) = (c :: w) :: ws.
Proof.
  intros Hne. simpl. destruct (N.eqb_spec c sep) as [-> | _]; [contradiction|].
  destruct (split sep s) as [|w ws]; eexists; eexists; reflexivity.
Qed.

Lemma set_In {V : Type} (d : Dict.dict V) (k k' : str) (v v' : V) :
  In (k', v') (Dict.set d k v) -> (k', v') = (k, v) \/ In (k', v') d.
Proof.
  induction d as [|[k0 v0] d IH]; simpl.
  - intros [H | []]. left. symmetry. exact H.
  - destruct (eqb k0 k) eqn:E; simpl.
    + apply eqb_eq in E. subst k0. intros [H | H]; [left | right; right];
        [symmetry; exact H | exact H].
    + intros [H | H]; [right; left; exact H|].
      destruct (IH H) as [H' | H']; [left | right; right]; assumption.
Qed.

Lemma of_pairs_In {V : Type} (pairs : list (str * V)) (k : str) (v : V) :
  In (k, v) (Dict.of_pairs pairs) -> In (k, v) pairs.
Proof.
  unfold Dict.of_pairs.
  assert (H : forall d,
             In (k, v) (fold_left (fun d kv => Dict.set d (fst kv) (snd kv))
                                  pairs d) ->
             In (k, v) d \/ In (k, v) pairs).
  { induction pairs as [|[k0 v0] pairs IH]; intros d; simpl; [auto|].
    intros Hin. destruct (IH _ Hin) as [H | H]; [|auto].
    apply set_In in H. destruct H as [H | H]; [right; left; symmetry | left];
      assumption. }
  intros Hin. destruct (H [] Hin) as [[] | Hp]. exact Hp.
Qed.

Lemma load_model_mappings_header (fs : files) (header : str)
    (lines : list str) :
  text fs base_data_file = Some (header :: lines) ->
  load_model_mappings fs = Ok (Dict.of_pairs (entries lines)).
Proof.
  intros Hfile. unfold load_model_mappings.
  rewrite Hfile, load_lines_entries. reflexivity.
Qed.

Lemma entry_of_fields (line k m : str) :
  In (k, m) (entry_of line)
  <-> exists rest, split TAB (strip line) = k :: m :: rest.
Proof.
  unfold entry_of.
  destruct (split TAB (strip line)) as [|key [|model rest]]; simpl.
  - split; [intros [] | intros [rest H]; discriminate].
  - split; [intros [] | intros [rest H]; discriminate].
  - split.
    + intros [H | []]. injection H as -> ->. exists rest. reflexivity.
    + intros [rest' H]. injection H as -> -> _. left. reflexivity.
Qed.

Lemma entry_of_nil (line : str) :
  entry_of line = [] <-> ~ In TAB (strip line).
Proof.
  rewrite <- split_two_fields. unfold entry_of.
  destruct (split TAB (strip line)) as [|key [|model rest]]; simpl;
    split; intros H; try reflexivity; try lia; try discriminate.
Qed.

Lemma entries_nil (lines : list str) :
  entries lines = [] <-> Forall (fun line => ~ In TAB (strip line)) lines.
Proof.
  unfold entries. induction lines as [|line lines IH]; simpl.
  - split; [constructor | reflexivity].
  - split.
    + intros H. apply app_eq_nil in H. destruct H as [H1 H2].
      constructor; [apply entry_of_nil, H1 | apply IH, H2].
    + intros H. inversion H as [|? ? H1 H2]; subst.
      apply entry_of_nil in H1. apply IH in H2. rewrite H1, H2. reflexivity.
Qed.

(** The fields of a stripped line: the first one begins with a character
    that is not white space, and none holds a tab. *)
Lemma stripped_fields (line k m : str) (rest : list str) :
  split TAB (strip line) = k :: m :: rest ->
  (exists c t, k = c :: t /\ isspace c = false)
  /\ ~ In TAB k /\ ~ In TAB m.
Proof.
  intros Hsplit.
  pose proof (split_fields_no_sep TAB (strip line)) as Hno.
  rewrite Hsplit in Hno.
  inversion Hno as [|? ? Hk Hno']; subst.
  inversion Hno' as [|? ? Hm _]; subst.
  split; [|split; assumption].
  destruct (strip_ends line) as [Hnil | [(c & t & Hs & Hc) _]].
  - rewrite Hnil in Hsplit. discriminate.
  - assert (Hne : c <> TAB).
    { intros ->. rewrite isspace_TAB in Hc. discriminate. }
    destruct (split_head TAB c t Hne) as (w & ws & Hw).
    rewrite Hs, Hw in Hsplit. injection Hsplit as <- _.
    exists c, w. split; [reflexivity | exact Hc].
Qed.

(** X4: in the table the loader returns, every key begins with a character
    that is not white space, so no key is empty, and neither a key nor a
    model holds a tab. *)
Theorem lookup_table_entries (fs : files) (table : Dict.dict str) :
  load_model_mappings fs = Ok table ->
  Forall (fun entry =>
            (exists c t, fst entry = c :: t /\ isspace c = false)
            /\ ~ In TAB (fst entry) /\ ~ In TAB (snd entry))
         table.
Proof.
  unfold load_model_mappings.
  destruct (text fs base_data_file) as [[|header lines]|] eqn:Hfile;
    intros Hload; try discriminate.
  - injection Hload as <-. rewrite load_lines_entries.
    apply Forall_forall. intros [k m] Hin. simpl.
    apply (of_pairs_In (entries lines)) in Hin.
    unfold entries in Hin. apply in_flat_map in Hin.
    destruct Hin as (line & _ & Hin). apply entry_of_fields in Hin.
    destruct Hin as [rest Hsplit].
    eapply stripped_fields. exact Hsplit.
  - injection Hload as <-. constructor.
Qed.

Lemma lookup_table_entries_witness :
  Forall (fun entry =>
            (exists c t, fst entry = c :: t /\ isspace c = false)
            /\ ~ In TAB (fst entry) /\ ~ In TAB (snd entry))
         [(lit "698d51a19d8a121ce581499d7b701668", lit "A")].
Proof.
  apply (lookup_table_entries join_run). reflexivity.
Defined.

(** X5: the loader returns the empty table exactly when the lookup file is
    missing or has, after its header, no line in which a tab is left once
    the line is stripped; and on the empty table the matcher returns
    [False] and writes nothing, so that a lookup file without a usable line
    ends the run like a missing one. *)
Theorem empty_lookup_table (fs : files) :
  (load_model_mappings fs = Ok []
   <-> text fs base_data_file = None
       \/ exists header lines,
            text fs base_data_file = Some (header :: lines)
            /\ Forall (fun line => ~ In TAB (strip line)) lines)
  /\ (load_model_mappings fs = Ok [] ->
      (forall phone_csv_file output_csv_file,
         process_phone_data phone_csv_file output_csv_file fs = (Ok false, fs))
      /\ run_full_process fs = (Ok false, fs)).
Proof.
  split.
  - split.
    + unfold load_model_mappings.
      destruct (text fs base_data_file) as [[|header lines]|] eqn:Hfile;
        intros Hload; try discriminate; [|left; reflexivity].
      right. exists header, lines. split; [reflexivity|].
      injection Hload as Hload. rewrite load_lines_entries in Hload.
      apply entries_nil. apply (of_pairs_nil_inv _ Hload).
    + intros [Hnone | (header & lines & Hfile & Hlines)].
      * unfold load_model_mappings. rewrite Hnone. reflexivity.
      * rewrite (load_model_mappings_header fs header lines Hfile).
        apply entries_nil in Hlines. rewrite Hlines. reflexivity.
  - intros Hload.
    assert (Hstep : forall phone_csv_file output_csv_file,
               process_phone_data phone_csv_file output_csv_file fs
               = (Ok false, fs)).
    { intros phone_csv_file output_csv_file. unfold process_phone_data.
      destruct (text fs phone_csv_file); [|reflexivity].
      rewrite Hload. reflexivity. }
    split; [exact Hstep|].
    unfold run_full_process, and_then. rewrite Hstep. reflexivity.
Qed.

(** X6: a lookup file without any line, not even a header, makes the
    loader raise [StopIteration].  The matcher lets it escape when its
    source file exists, having written nothing; when the source file is
    missing it returns [False] before the lookup file is opened.  The run
    ends with the exception as soon as the connect file exists. *)
Theorem lookup_file_without_header (fs : files) :
  text fs base_data_file = Some [] ->
  load_model_mappings fs = Raise StopIteration
  /\ (forall phone_csv_file output_csv_file,
        process_phone_data phone_csv_file output_csv_file fs
        = match text fs phone_csv_file with
          | Some _ => (Raise StopIteration, fs)
          | None => (Ok false, fs)
          end)
  /\ (text fs call_connect_csv <> None ->
      run_full_process fs = (Raise StopIteration, fs)).
Proof.
  intros Hfile.
  assert (Hload : load_model_mappings fs = Raise StopIteration).
  { unfold load_model_mappings. rewrite Hfile. reflexivity. }
  assert (Hstep : forall phone_csv_file output_csv_file,
             process_phone_data phone_csv_file output_csv_file fs
             = match text fs phone_csv_file with
               | Some _ => (Raise StopIteration, fs)
               | None => (Ok false, fs)
               end).
  { intros phone_csv_file output_csv_file. unfold process_phone_data.
    destruct (text fs phone_csv_file); [|reflexivity].
    rewrite Hload. reflexivity. }
  split; [exact Hload|]. split; [exact Hstep|].
  intros Hconnect. unfold run_full_process, and_then. rewrite Hstep.
  destruct (text fs call_connect_csv); [reflexivity | contradiction].
Qed.

Lemma lookup_file_without_header_witness :
  run_full_process (input_files (Some []) (Some [lit "111" ++ [LF]]) None)
  = (Raise StopIteration,
     input_files (Some []) (Some [lit "111" ++ [LF]]) None).
Proof.
  apply (lookup_file_without_header
           (input_files (Some []) (Some [lit "111" ++ [LF]]) None) eq_refl).
  discriminate.
Defined.

Lemma empty_lookup_table_witness :
  process_phone_data call_connect_csv call_connect_model_csv header_only_run
  = (Ok false, header_only_run)
  /\ run_full_process header_only_run = (Ok false, header_only_run).
Proof.
  destruct (empty_lookup_table header_only_run) as [_ Hrun].
  destruct (Hrun eq_refl) as [Hstep Hall].
  split; [apply Hstep | exact Hall].
Defined.

(** ** The frequency table *)

Lemma count_occ_pos_in (names : list str) (m : str) :
  In m names <-> (1 <= count_occ str_eq_dec names m)%nat.
Proof. rewrite (count_occ_In str_eq_dec). unfold gt. lia. Qed.


(** X7: every count of the frequency table is at least 1 and at most the
    number of records, and the table has no more rows than there are
    records. *)
Theorem frequency_table_bounds (rows : list MatchedRecord) :
  Forall (fun row => 1 <= snd row <= Z.of_nat (List.length rows))
         (model_counts rows)
  /\ (List.length (model_counts rows) <= List.length rows)%nat.
Proof.
  assert (Hrows : Forall (fun row => 1 <= snd row <= Z.of_nat (List.length rows))
                         (model_counts rows)).
  { apply Forall_forall. intros [m c] Hin. simpl.
    apply model_counts_In in Hin. destruct Hin as (_ & Hin & ->).
    apply count_occ_pos_in in Hin.
    pose proof (count_occ_bound str_eq_dec m (map model_name rows)) as Hb.
    rewrite length_map in Hb. lia. }
  split; [exact Hrows|].
  pose proof (model_counts_total rows) as Htotal.
  pose proof (matched_rows_le rows) as Hle.
  assert (Hsum : forall t : FrequencyTable,
             Forall (fun row => 1 <= snd row) t ->
             Z.of_nat (List.length t) <= total_count t).
  { unfold total_count. induction 1 as [|[m c] t Hc _ IH]; simpl in *; lia. }
  assert (H1 : Forall (fun row => 1 <= snd row) (model_counts rows)).
  { eapply Forall_impl; [|exact Hrows]. simpl. intros row H. lia. }
  apply Hsum in H1. lia.
Qed.

(** X8: the frequency table depends on the records only up to their order:
    two match files with the same rows in another order give the same
    table. *)
Theorem frequency_table_order_free (rows rows' : list MatchedRecord) :
  Permutation rows rows' -> model_counts rows = model_counts rows'.
Proof.
  intros Hperm.
  assert (Hnames : Permutation (map model_name rows) (map model_name rows'))
    by (apply Permutation_map; exact Hperm).
  apply (strongly_sorted_unique fst).
  - apply model_counts_NoDup.
  - apply sort_by_strongly_sorted.
  - apply sort_by_strongly_sorted.
  - apply NoDup_Permutation.
    + eapply NoDup_map_inv. apply model_counts_NoDup.
    + eapply NoDup_map_inv. apply model_counts_NoDup.
    + intros [m c]. rewrite !model_counts_In.
      rewrite (Permutation_count_occ str_eq_dec) in Hnames.
      rewrite (Hnames m).
      split; intros (Hm & Hin & Hc); (split; [exact Hm|]); (split; [|exact Hc]).
      * eapply Permutation_in; [apply Permutation_map; exact Hperm | exact Hin].
      * eapply Permutation_in;
          [apply Permutation_map; symmetry; exact Hperm | exact Hin].
Qed.

Lemma frequency_table_order_free_witness :
  model_counts [mkMatched (lit "1") [] (lit "B"); mkMatched (lit "2") [] (lit "A")]
  = model_counts [mkMatched (lit "2") [] (lit "A"); mkMatched (lit "1") [] (lit "B")].
Proof.
  apply frequency_table_order_free. apply perm_swap.
Defined.


(** ** The report *)





(** A row of the report, from the entry of the connect dictionary it is
    made of. *)
Lemma report_row (connect intention : FrequencyTable)
    (rows : list RateRow) (r : RateRow) :
  success_rate_rows connect intention = Ok rows -> In r rows ->
  In (rate_model_name r, call_connect_count r) (Dict.of_pairs connect)
  /\ a_intention_count r
     = Dict.get_default (Dict.of_pairs intention) (rate_model_name r) 0
  /\ order_success_rate r
     = if 0 <? call_connect_count r
       then (inject_Z (a_intention_count r)
             / inject_Z (call_connect_count r))%Q
       else 0%Q.
Proof.
  intros Hrows Hin. apply success_rate_rows_ok in Hrows.
  destruct Hrows as [-> _]. apply sort_by_In in Hin.
  apply in_flat_map in Hin. destruct Hin as ([m c] & Hmc & Hr).
  simpl in Hr. destruct Hr as [<- | []]. simpl. auto.
Qed.

Lemma quotient_bounds (a c : Z) :
  0 < c ->
  (0 <= a -> (0 <= inject_Z a / inject_Z c)%Q)
  /\ ((inject_Z a / inject_Z c <= 1)%Q <-> a <= c).
Proof.
  intros Hc. destruct c as [|p|p]; try lia.
  unfold Qdiv, Qinv, Qmult, Qle, inject_Z. simpl. split; [lia|].
  split; intros H; lia.
Qed.

(** X11: the rate of a row is never negative when its counts are not, it
    is 0 when the connect count is not positive, and it is not capped: it
    is at most 1 exactly when the intention count is at most the connect
    count. *)
Theorem rate_bounds (connect intention : FrequencyTable)
    (rows : list RateRow) :
  success_rate_rows connect intention = Ok rows ->
  Forall (fun r =>
            (call_connect_count r <= 0 -> order_success_rate r = 0%Q)
            /\ (0 < call_connect_count r -> 0 <= a_intention_count r ->
                (0 <= order_success_rate r)%Q)
            /\ (0 < call_connect_count r ->
                ((order_success_rate r <= 1)%Q
                 <-> a_intention_count r <= call_connect_count r)))
         rows.
Proof.
  intros Hrows. apply Forall_forall. intros r Hin.
  destruct (report_row connect intention rows r Hrows Hin) as (_ & _ & Hrate).
  rewrite Hrate. split; [|split].
  - intros Hc. destruct (Z.ltb_spec 0 (call_connect_count r)); [lia|].
    reflexivity.
  - intros Hc Ha. destruct (Z.ltb_spec 0 (call_connect_count r)); [|lia].
    exact (proj1 (quotient_bounds _ _ Hc) Ha).
  - intros Hc. destruct (Z.ltb_spec 0 (call_connect_count r)); [|lia].
    exact (proj2 (quotient_bounds _ _ Hc)).
Qed.

Lemma rate_bounds_witness :
  Forall (fun r =>
            (call_connect_count r <= 0 -> order_success_rate r = 0%Q)
            /\ (0 < call_connect_count r -> 0 <= a_intention_count r ->
                (0 <= order_success_rate r)%Q)
            /\ (0 < call_connect_count r ->
                ((order_success_rate r <= 1)%Q
                 <-> a_intention_count r <= call_connect_count r)))
         [mkRate (lit "A") 7 5 (7 # 5)].
Proof.
  apply (rate_bounds [(lit "A", 5)] [(lit "A", 7)]). reflexivity.
Defined.

(** X12: the last step never raises.  It returns [False], leaving every
    file as it was, exactly when one of the two count files is missing or
    the connect table has no row; otherwise it writes the report. *)
Theorem calculate_order_success_rate_outcome (fs : files) :
  exists b fs',
    calculate_order_success_rate fs = (Ok b, fs')
    /\ (b = false
        <-> counts fs a_intention_count_csv = None
            \/ counts fs call_connect_count_csv = None
            \/ counts fs call_connect_count_csv = Some [])
    /\ (b = false -> fs' = fs)
    /\ (b = true ->
        exists connect intention rows,
          counts fs call_connect_count_csv = Some connect
          /\ counts fs a_intention_count_csv = Some intention
          /\ success_rate_rows connect intention = Ok rows
          /\ fs' = write_final fs rows).
Proof.
  unfold calculate_order_success_rate.
  destruct (counts fs a_intention_count_csv) as [intention|] eqn:Hi.
  2:{ exists false, fs. split; [reflexivity|]. split; [|split].
      - split; auto.
      - reflexivity.
      - discriminate. }
  destruct (counts fs call_connect_count_csv) as [connect|] eqn:Hc.
  2:{ exists false, fs. split; [reflexivity|]. split; [|split].
      - split; auto.
      - reflexivity.
      - discriminate. }
  destruct (success_rate_rows connect intention) as [rows|e] eqn:Hrows.
  - exists true, (write_final fs rows). split; [reflexivity|].
    split; [|split].
    + split; [discriminate|]. intros [H | [H | H]]; try discriminate.
      injection H as ->. apply success_rate_rows_ok in Hrows.
      destruct Hrows as [_ Hne]. contradiction.
    + discriminate.
    + intros _. exists connect, intention, rows. auto.
  - exists false, fs. split; [reflexivity|]. split; [|split].
    + split; [|reflexivity]. intros _. right. right.
      apply success_rate_rows_raise in Hrows. rewrite Hrows. reflexivity.
    + reflexivity.
    + discriminate.
Qed.

(** ** The totals of the report *)









(** ** The run as a whole *)

Lemma triples_models (table : Dict.dict str) (phones : list str)
    (output : list MatchedRecord) :
  Forall2 (triple_of table) phones output ->
  map model_name output = map (lookup_model table) phones
  /\ map phone_number output = phones.
Proof.
  induction 1 as [|phone r phones output (Hp & Hkey & Hm) _ [IH1 IH2]]; simpl.
  - split; reflexivity.
  - rewrite IH1, IH2, Hp. split; [|reflexivity]. f_equal.
    unfold lookup_model, Dict.get_default. rewrite Hkey. exact Hm.
Qed.

(** The matcher on a source file of decoded text, with a lookup table that
    is not empty. *)
Lemma process_phone_data_ok (fs : files) (phone_csv_file : text_path)
    (output_csv_file : match_path) (lines : list str)
    (table : Dict.dict str) :
  text fs phone_csv_file = Some lines ->
  Forall scalar_str lines ->
  load_model_mappings fs = Ok table ->
  table <> [] ->
  exists output,
    process_phone_data phone_csv_file output_csv_file fs
    = (Ok true, write_matched fs output_csv_file output)
    /\ map model_name output = source_models table lines
    /\ map phone_number output = read_phone_numbers lines.
Proof.
  intros Hfile Hscalar Hload Hne. unfold process_phone_data.
  rewrite Hfile, Hload.
  destruct table as [|entry table]; [contradiction|]. simpl.
  destruct (match_phones_spec (entry :: table) (read_phone_numbers lines) []
              (phone_numbers_scalar lines Hscalar)) as (output & Hrun & Hall).
  rewrite Hrun. simpl. exists output. split; [reflexivity|].
  apply triples_models. exact Hall.
Qed.



Lemma and_then_true (step next : M bool) (fs fs' : files) :
  step fs = (Ok true, fs') -> and_then step next fs = next fs'.
Proof. intros H. unfold and_then. rewrite H. reflexivity. Qed.

Lemma count_data_by_model_ok (fs : files) (input_file : match_path)
    (output_file : count_path) (rows : list MatchedRecord) :
  matched fs input_file = Some rows ->
  count_data_by_model input_file output_file fs
  = (Ok true, write_counts fs output_file (model_counts rows)).
Proof. intros H. unfold count_data_by_model. rewrite H. reflexivity. Qed.

(** The five steps, one after the other, when the two matching steps
    succeed. *)
Lemma run_full_process_steps (fs : files) (table : Dict.dict str)
    (connect_lines intention_lines : list str) :
  load_model_mappings fs = Ok table -> table <> [] ->
  text fs call_connect_csv = Some connect_lines ->
  text fs a_intention_csv = Some intention_lines ->
  Forall scalar_str connect_lines -> Forall scalar_str intention_lines ->
  exists connect_rows intention_rows,
    map model_name connect_rows = source_models table connect_lines
    /\ map model_name intention_rows = source_models table intention_lines
    /\ run_full_process fs
       = calculate_order_success_rate
           (write_counts
              (write_matched
                 (write_counts
                    (write_matched fs call_connect_model_csv connect_rows)
                    call_connect_count_csv (model_counts connect_rows))
                 a_intention_model_csv intention_rows)
              a_intention_count_csv (model_counts intention_rows)).
Proof.
  intros Hload Hne Hc Hi Hsc Hsi.
  destruct (process_phone_data_ok fs call_connect_csv call_connect_model_csv
              connect_lines table Hc Hsc Hload Hne)
    as (connect_rows & Hstep3 & Hmodels3 & _).
  set (fs2 := write_counts
                (write_matched fs call_connect_model_csv connect_rows)
                call_connect_count_csv (model_counts connect_rows)).
  destruct (process_phone_data_ok fs2 a_intention_csv a_intention_model_csv
              intention_lines table Hi Hsi Hload Hne)
    as (intention_rows & Hstep5 & Hmodels5 & _).
  exists connect_rows, intention_rows.
  split; [exact Hmodels3|]. split; [exact Hmodels5|].
  unfold run_full_process.
  rewrite (and_then_true _ _ _ _ Hstep3).
  rewrite (and_then_true _ _ _ _
             (count_data_by_model_ok
                (write_matched fs call_connect_model_csv connect_rows)
                call_connect_model_csv call_connect_count_csv connect_rows
                eq_refl)).
  fold fs2. rewrite (and_then_true _ _ _ _ Hstep5).
  rewrite (and_then_true _ _ _ _
             (count_data_by_model_ok
                (write_matched fs2 a_intention_model_csv intention_rows)
                a_intention_model_csv a_intention_count_csv intention_rows
                eq_refl)).
  reflexivity.
Qed.



Lemma model_counts_nil (rows : list MatchedRecord) :
  (forall m, In m (map model_name rows) -> m = []) -> model_counts rows = [].
Proof.
  intros Hall. destruct (model_counts rows) as [|[m c] t] eqn:E;
    [reflexivity|]. exfalso.
  assert (Hin : In (m, c) (model_counts rows)) by (rewrite E; left; reflexivity).
  apply model_counts_In in Hin. destruct Hin as (Hm & Hin & _).
  apply Hm, Hall, Hin.
Qed.

(** X15: when no connect phone number has a model, the run fails at its
    last step only: it returns [False] and writes no report, after it has
    written the two match files and the two frequency tables, the connect
    table being empty. *)
Theorem run_without_matched_connect (fs : files) (table : Dict.dict str)
    (connect_lines intention_lines : list str) :
  load_model_mappings fs = Ok table -> table <> [] ->
  text fs call_connect_csv = Some connect_lines ->
  text fs a_intention_csv = Some intention_lines ->
  Forall scalar_str connect_lines -> Forall scalar_str intention_lines ->
  (forall phone, In phone (read_phone_numbers connect_lines) ->
                 lookup_model table phone = []) ->
  exists fs',
    run_full_process fs = (Ok false, fs')
    /\ final_output_file fs' = final_output_file fs
    /\ text fs' = text fs
    /\ counts fs' call_connect_count_csv = Some []
    /\ matched fs' call_connect_model_csv <> None
    /\ matched fs' a_intention_model_csv <> None
    /\ counts fs' a_intention_count_csv <> None.
Proof.
  intros Hload Hne Hc Hi Hsc Hsi Hnone.
  destruct (run_full_process_steps fs table connect_lines intention_lines
              Hload Hne Hc Hi Hsc Hsi)
    as (connect_rows & intention_rows & Hcm & Him & Hrun).
  assert (Hempty : model_counts connect_rows = []).
  { apply model_counts_nil. rewrite Hcm. unfold source_models.
    intros m Hin. apply in_map_iff in Hin.
    destruct Hin as (phone & <- & Hphone). apply Hnone, Hphone. }
  rewrite Hempty in Hrun.
  match type of Hrun with
  | _ = calculate_order_success_rate ?fs4 =>
      rewrite (calculate_order_success_rate_report fs4 []
                 (model_counts intention_rows) eq_refl eq_refl) in Hrun
  end.
  simpl in Hrun.
  eexists. split; [exact Hrun|]. simpl.
  repeat split; discriminate.
Qed.

Lemma run_without_matched_connect_witness :
  exists fs',
    run_full_process
      (input_files
         (Some [header_line;
                lit "698d51a19d8a121ce581499d7b701668" ++ [TAB] ++ lit "A"
                    ++ [LF]])
         (Some [lit "222" ++ [LF]]) (Some [lit "111" ++ [LF]]))
    = (Ok false, fs')
    /\ final_output_file fs' = None.
Proof.
  destruct (run_without_matched_connect
              (input_files
                 (Some [header_line;
                        lit "698d51a19d8a121ce581499d7b701668" ++ [TAB]
                            ++ lit "A" ++ [LF]])
                 (Some [lit "222" ++ [LF]]) (Some [lit "111" ++ [LF]]))
              [(lit "698d51a19d8a121ce581499d7b701668", lit "A")]
              [lit "222" ++ [LF]] [lit "111" ++ [LF]])
    as (fs' & Hrun & Hfinal & _).
  - reflexivity.
  - discriminate.
  - reflexivity.
  - reflexivity.
  - repeat constructor.
  - repeat constructor.
  - intros phone [<- | []]. vm_compute. reflexivity.
  - exists fs'. split; [exact Hrun | exact Hfinal].
Defined.

(** ** What a run leaves alone, and what it records *)






Lemma flagged_and_then (step : M bool) (next : M bool)
    (next_flagged : files -> result bool * files * bool) :
  (forall fs, fst (next_flagged fs) = next fs
              /\ (snd (next_flagged fs) = false <-> fst (next fs) = Ok false)) ->
  forall fs,
    fst (flagged step next_flagged fs) = and_then step next fs
    /\ (snd (flagged step next_flagged fs) = false
        <-> fst (and_then step next fs) = Ok false).
Proof.
  intros Hnext fs. unfold flagged, and_then.
  destruct (step fs) as [[[|]|e] fs']; simpl.
  - apply Hnext.
  - split; [reflexivity|]. split; reflexivity.
  - split; [reflexivity|]. split; discriminate.
Qed.

(** X17: the status of a run in its processing information.  The flag
    handed to [write_processing_info] is [False] exactly when the run
    returns [False]: a run that ends with an exception is recorded as a
    success, like a run that returns [True]. *)
Theorem run_status_recorded (fs : files) :
  fst (run_with_status fs) = run_full_process fs
  /\ (snd (run_with_status fs) = false
      <-> fst (run_full_process fs) = Ok false)
  /\ (forall e, fst (run_full_process fs) = Raise e ->
                snd (run_with_status fs) = true).
Proof.
  assert (H : fst (run_with_status fs) = run_full_process fs
              /\ (snd (run_with_status fs) = false
                  <-> fst (run_full_process fs) = Ok false)).
  { unfold run_with_status, run_full_process.
    repeat (apply flagged_and_then; intros).
    unfold flagged.
    match goal with
    | |- context [calculate_order_success_rate ?fs0] =>
        destruct (calculate_order_success_rate fs0) as [[[|]|e] fs']
    end; simpl.
    - split; [reflexivity|]. split; discriminate.
    - split; [reflexivity|]. split; reflexivity.
    - split; [reflexivity|]. split; discriminate. }
  destruct H as [H1 H2]. split; [exact H1|]. split; [exact H2|].
  intros e He. destruct (snd (run_with_status fs)); [reflexivity|].
  rewrite (proj1 H2 eq_refl) in He. discriminate.
Qed.

Lemma run_status_recorded_witness :
  fst (fst (run_with_status
              (input_files (Some []) (Some [lit "111" ++ [LF]]) None)))
  = Raise StopIteration
  /\ snd (run_with_status
            (input_files (Some []) (Some [lit "111" ++ [LF]]) None))
     = true.
Proof.
  destruct (run_status_recorded
              (input_files (Some []) (Some [lit "111" ++ [LF]]) None))
    as (Hrun & _ & Hraise).
  split.
  - rewrite Hrun. reflexivity.
  - apply (Hraise StopIteration). reflexivity.
Defined.

(** ** The paths of a run *)

Module PathFacts.
Import FileManager.

Lemma endswith_app (c : char) (a b : str) :
  b <> [] -> endswith c (a ++ b) = endswith c b.
Proof.
  intros Hb. unfold endswith. rewrite rev_app_distr.
  destruct (rev b) as [|x t] eqn:E; [|reflexivity].
  apply (f_equal (@rev char)) in E. rewrite rev_involutive in E.
  contradiction.
Qed.

Lemma startswith_app (c : char) (a b : str) :
  a <> [] -> startswith c (a ++ b) = startswith c a.
Proof. destruct a; [contradiction | reflexivity]. Qed.

Lemma eqb_nil (s : str) : s <> [] -> PyStr.eqb s [] = false.
Proof. intros H. apply eqb_neq. exact H. Qed.

(** Joining a relative name to a directory that does not end with a
    separator. *)
Lemma join_relative (path b : str) :
  path <> [] -> endswith SLASH path = false -> startswith SLASH b = false ->
  join path b = path ++ [SLASH] ++ b.
Proof.
  intros Hp He Hb. unfold join. rewrite Hb, (eqb_nil path Hp), He.
  reflexivity.
Qed.

Lemma lower_hex_not_slash (c : char) : is_lower_hex c = true -> c <> SLASH.
Proof. intros H ->. vm_compute in H. discriminate. Qed.

(** The first eight digits of a key. *)
Lemma file_hash_digits (s digest : str) :
  generate_md5 s = Ok digest ->
  List.length (firstn 8 digest) = 8%nat
  /\ Forall (fun c => is_lower_hex c = true) (firstn 8 digest).
Proof.
  unfold generate_md5. destruct (Utf8.encode s) as [bs|e]; [|discriminate].
  unfold bind. intros H.
  assert (Hd : digest = MD5.hex (MD5.digest bs)) by congruence.
  clear H. subst digest. split.
  - rewrite length_firstn, hex_length, digest_length. reflexivity.
  - pose proof (hex_lower _ (digest_range bs)) as Hall.
    rewrite <- (firstn_skipn 8 (MD5.hex (MD5.digest bs))) in Hall.
    apply Forall_app in Hall. apply Hall.
Qed.

(** The directory of a run is not empty and does not end with a
    separator. *)
Lemma output_dir_shape (base_data_file excel_file prefix timestamp dir : str) :
  create_unique_output_dir base_data_file excel_file prefix timestamp = Ok dir ->
  exists file_hash,
    List.length file_hash = 8%nat
    /\ Forall (fun c => is_lower_hex c = true) file_hash
    /\ dir = (if startswith SLASH prefix then [] else lit "./")
             ++ prefix ++ [UNDERSCORE] ++ timestamp ++ [UNDERSCORE]
             ++ file_hash.
Proof.
  unfold create_unique_output_dir.
  destruct (generate_md5 (base_data_file ++ [UNDERSCORE] ++ excel_file))
    as [digest|e] eqn:Hd; [|discriminate].
  unfold bind. intros H.
  assert (Hdir : dir = join (lit ".")
                        (prefix ++ [UNDERSCORE] ++ timestamp ++ [UNDERSCORE]
                           ++ firstn 8 digest)) by congruence.
  clear H. subst dir.
  destruct (file_hash_digits _ _ Hd) as [Hlen Hhex].
  exists (firstn 8 digest). split; [exact Hlen|]. split; [exact Hhex|].
  unfold join.
  assert (Hstart : startswith SLASH
                     (prefix ++ [UNDERSCORE] ++ timestamp ++ [UNDERSCORE]
                        ++ firstn 8 digest)
                   = startswith SLASH prefix).
  { destruct prefix; reflexivity. }
  rewrite Hstart. destruct (startswith SLASH prefix); reflexivity.
Qed.

Lemma output_dir_end (base_data_file excel_file prefix timestamp dir : str) :
  create_unique_output_dir base_data_file excel_file prefix timestamp = Ok dir ->
  dir <> [] /\ endswith SLASH dir = false.
Proof.
  intros H. apply output_dir_shape in H.
  destruct H as (file_hash & Hlen & Hhex & ->).
  destruct (exists_last (l := file_hash)) as (h & c & ->).
  { intros ->. discriminate. }
  assert (Hc : c <> SLASH).
  { apply lower_hex_not_slash. rewrite Forall_forall in Hhex. apply Hhex.
    apply in_or_app. right. left. reflexivity. }
  rewrite !app_assoc. split.
  - intros Habs. apply app_eq_nil in Habs. destruct Habs as [_ Habs].
    discriminate.
  - rewrite endswith_app by discriminate. unfold endswith. simpl.
    apply N.eqb_neq. exact Hc.
Qed.

Lemma NoDup_map_prefix (a : str) (l : list str) :
  NoDup l -> NoDup (map (fun rel => a ++ rel) l).
Proof.
  induction 1 as [|x l Hnotin _ IH]; simpl; constructor; [|exact IH].
  intros Hin. apply in_map_iff in Hin. destruct Hin as (y & Heq & Hy).
  apply app_inv_head in Heq. subst y. contradiction.
Qed.

(** X18: the directory of a run is the prefix, the time stamp and eight
    lowercase hexadecimal digits, joined by underscores; it lies under the
    current directory unless the prefix begins with a separator, in which
    case [os.path.join] drops the current directory and the run is written
    where the prefix says. *)
Theorem output_dir_name (base_data_file excel_file prefix timestamp : str) :
  scalar_str base_data_file -> scalar_str excel_file ->
  exists file_hash,
    List.length file_hash = 8%nat
    /\ Forall (fun c => is_lower_hex c = true) file_hash
    /\ create_unique_output_dir base_data_file excel_file prefix timestamp
       = Ok ((if startswith SLASH prefix then [] else lit "./")
             ++ prefix ++ [UNDERSCORE] ++ timestamp ++ [UNDERSCORE]
             ++ file_hash).
Proof.
  intros Hb He.
  assert (Hs : scalar_str (base_data_file ++ [UNDERSCORE] ++ excel_file)).
  { unfold scalar_str in *. apply Forall_app. split; [exact Hb|].
    apply Forall_app. split; [|exact He]. repeat constructor. }
  destruct (generate_md5_scalar _ Hs) as [digest Hd].
  assert (Hdir : exists dir,
             create_unique_output_dir base_data_file excel_file prefix
               timestamp = Ok dir).
  { unfold create_unique_output_dir. rewrite Hd. unfold bind.
    eexists. reflexivity. }
  destruct Hdir as [dir Hdir].
  destruct (output_dir_shape _ _ _ _ _ Hdir) as (file_hash & Hlen & Hhex & Heq).
  exists file_hash. split; [exact Hlen|]. split; [exact Hhex|].
  rewrite Hdir, Heq. reflexivity.
Qed.

Lemma output_dir_name_witness :
  exists file_hash,
    List.length file_hash = 8%nat
    /\ Forall (fun c => is_lower_hex c = true) file_hash
    /\ create_unique_output_dir (lit "base.txt") (lit "data.xlsx")
         (lit "/tmp/results") (lit "20240101_120000")
       = Ok ((if startswith SLASH (lit "/tmp/results") then [] else lit "./")
             ++ lit "/tmp/results" ++ [UNDERSCORE] ++ lit "20240101_120000"
             ++ [UNDERSCORE] ++ file_hash).
Proof.
  apply (output_dir_name (lit "base.txt") (lit "data.xlsx")
           (lit "/tmp/results") (lit "20240101_120000"));
    repeat constructor.
Defined.

(** X19: the eight files of a run have eight different paths, each made of
    the directory of the run, a separator and a fixed relative name; the
    six intermediate files are under [intermediate]. *)
Theorem run_paths_distinct (base_data_file excel_file prefix timestamp : str)
    (p : paths) :
  init base_data_file excel_file prefix timestamp = Ok p ->
  NoDup (output_files p)
  /\ intermediate_dir p = output_dir p ++ [SLASH] ++ lit "intermediate"
  /\ output_files p
     = map (fun rel => output_dir p ++ [SLASH] ++ rel)
           [lit "intermediate/call_connect.csv";
            lit "intermediate/A_intention.csv";
            lit "intermediate/call_connect_model.csv";
            lit "intermediate/call_connect_model_count.csv";
            lit "intermediate/A_intention_model.csv";
            lit "intermediate/A_intention_model_count.csv";
            lit "order_success_rate_results.csv";
            lit "processing_info.txt"].
Proof.
  unfold init.
  destruct (create_unique_output_dir base_data_file excel_file prefix timestamp)
    as [dir|e] eqn:Hdir; [|discriminate].
  unfold bind. intros H.
  destruct (output_dir_end _ _ _ _ _ Hdir) as [Hne Hend].
  assert (Hinter : join dir (lit "intermediate")
                   = dir ++ [SLASH] ++ lit "intermediate")
    by (apply join_relative; [exact Hne | exact Hend | reflexivity]).
  assert (Hne' : dir ++ [SLASH] ++ lit "intermediate" <> []).
  { intros Habs. apply app_eq_nil in Habs. destruct Habs as [_ Habs].
    discriminate. }
  assert (Hend' : endswith SLASH (dir ++ [SLASH] ++ lit "intermediate") = false).
  { rewrite endswith_app by discriminate. reflexivity. }
  assert (Hfile : forall name,
             startswith SLASH name = false ->
             join (dir ++ [SLASH] ++ lit "intermediate") name
             = dir ++ [SLASH] ++ (lit "intermediate" ++ [SLASH] ++ name)).
  { intros name Hname. rewrite (join_relative _ name Hne' Hend' Hname).
    rewrite <- !app_assoc. reflexivity. }
  rewrite Hinter in H.
  rewrite !Hfile in H by reflexivity.
  rewrite !(join_relative dir) in H by (try reflexivity; assumption).
  assert (Hp : p = mkPaths dir (dir ++ [SLASH] ++ lit "intermediate")
                 (dir ++ [SLASH] ++ lit "order_success_rate_results.csv")
                 (dir ++ [SLASH] ++ lit "processing_info.txt")
                 (dir ++ [SLASH] ++ lit "intermediate" ++ [SLASH]
                    ++ lit "call_connect.csv")
                 (dir ++ [SLASH] ++ lit "intermediate" ++ [SLASH]
                    ++ lit "A_intention.csv")
                 (dir ++ [SLASH] ++ lit "intermediate" ++ [SLASH]
                    ++ lit "call_connect_model.csv")
                 (dir ++ [SLASH] ++ lit "intermediate" ++ [SLASH]
                    ++ lit "call_connect_model_count.csv")
                 (dir ++ [SLASH] ++ lit "intermediate" ++ [SLASH]
                    ++ lit "A_intention_model.csv")
                 (dir ++ [SLASH] ++ lit "intermediate" ++ [SLASH]
                    ++ lit "A_intention_model_count.csv")) by congruence.
  clear H. subst p.
  assert (Hfiles :
            output_files
              (mkPaths dir (dir ++ [SLASH] ++ lit "intermediate")
                 (dir ++ [SLASH] ++ lit "order_success_rate_results.csv")
                 (dir ++ [SLASH] ++ lit "processing_info.txt")
                 (dir ++ [SLASH] ++ lit "intermediate" ++ [SLASH]
                    ++ lit "call_connect.csv")
                 (dir ++ [SLASH] ++ lit "intermediate" ++ [SLASH]
                    ++ lit "A_intention.csv")
                 (dir ++ [SLASH] ++ lit "intermediate" ++ [SLASH]
                    ++ lit "call_connect_model.csv")
                 (dir ++ [SLASH] ++ lit "intermediate" ++ [SLASH]
                    ++ lit "call_connect_model_count.csv")
                 (dir ++ [SLASH] ++ lit "intermediate" ++ [SLASH]
                    ++ lit "A_intention_model.csv")
                 (dir ++ [SLASH] ++ lit "intermediate" ++ [SLASH]
                    ++ lit "A_intention_model_count.csv"))
            = map (fun rel => dir ++ [SLASH] ++ rel)
                [lit "intermediate/call_connect.csv";
                 lit "intermediate/A_intention.csv";
                 lit "intermediate/call_connect_model.csv";
                 lit "intermediate/call_connect_model_count.csv";
                 lit "intermediate/A_intention_model.csv";
                 lit "intermediate/A_intention_model_count.csv";
                 lit "order_success_rate_results.csv";
                 lit "processing_info.txt"]) by reflexivity.
  split; [|split; [reflexivity | exact Hfiles]].
  rewrite Hfiles.
  rewrite (map_ext _ (fun rel => (dir ++ [SLASH]) ++ rel))
    by (intros rel; rewrite <- app_assoc; reflexivity).
  apply NoDup_map_prefix.
  match goal with
  | |- NoDup ?rels =>
      replace rels with (nodup str_eq_dec rels)
        by (vm_compute; reflexivity)
  end.
  apply NoDup_nodup.
Qed.

Lemma run_paths_distinct_witness :
  exists p,
    init (lit "base.txt") (lit "data.xlsx") (lit "results")
         (lit "20240101_120000") = Ok p
    /\ NoDup (output_files p).
Proof.
  destruct (init (lit "base.txt") (lit "data.xlsx") (lit "results")
                 (lit "20240101_120000")) as [p|e] eqn:E.
  - exists p. split; [reflexivity|].
    eapply run_paths_distinct. exact E.
  - exfalso. vm_compute in E. discriminate.
Defined.

End PathFacts.

(** ** A missing source file *)

(** X20: a missing source file ends the run with [False].  Without the
    connect file nothing is written, whatever the lookup file holds.
    Without the intention file the run stops at its third step: the match
    file and the frequency table of the connect source stay written, and
    there is no intention file and no report. *)
Theorem missing_source_file (fs : files) :
  (text fs call_connect_csv = None -> run_full_process fs = (Ok false, fs))
  /\ (forall table connect_lines,
        load_model_mappings fs = Ok table -> table <> [] ->
        text fs call_connect_csv = Some connect_lines ->
        Forall scalar_str connect_lines ->
        text fs a_intention_csv = None ->
        exists connect_rows fs',
          run_full_process fs = (Ok false, fs')
          /\ map model_name connect_rows = source_models table connect_lines
          /\ matched fs' call_connect_model_csv = Some connect_rows
          /\ counts fs' call_connect_count_csv
             = Some (model_counts connect_rows)
          /\ matched fs' a_intention_model_csv
             = matched fs a_intention_model_csv
          /\ counts fs' a_intention_count_csv
             = counts fs a_intention_count_csv
          /\ final_output_file fs' = final_output_file fs).
Proof.
  split.
  - intros Hmissing. unfold run_full_process, and_then, process_phone_data.
    rewrite Hmissing. reflexivity.
  - intros table connect_lines Hload Hne Hc Hsc Hi.
    destruct (process_phone_data_ok fs call_connect_csv call_connect_model_csv
                connect_lines table Hc Hsc Hload Hne)
      as (connect_rows & Hstep3 & Hmodels & _).
    exists connect_rows.
    exists (write_counts
              (write_matched fs call_connect_model_csv connect_rows)
              call_connect_count_csv (model_counts connect_rows)).
    split; [|repeat split; exact Hmodels].
    unfold run_full_process.
    rewrite (and_then_true _ _ _ _ Hstep3).
    rewrite (and_then_true _ _ _ _
               (count_data_by_model_ok
                  (write_matched fs call_connect_model_csv connect_rows)
                  call_connect_model_csv call_connect_count_csv connect_rows
                  eq_refl)).
    unfold and_then at 1. unfold process_phone_data at 1.
    simpl text. rewrite Hi. reflexivity.
Qed.

Lemma missing_source_file_witness :
  run_full_process
    (input_files
       (Some [header_line;
              lit "698d51a19d8a121ce581499d7b701668" ++ [TAB] ++ lit "A"
                  ++ [LF]])
       None (Some [lit "111" ++ [LF]]))
  = (Ok false,
     input_files
       (Some [header_line;
              lit "698d51a19d8a121ce581499d7b701668" ++ [TAB] ++ lit "A"
                  ++ [LF]])
       None (Some [lit "111" ++ [LF]])).
Proof.
  apply (proj1 (missing_source_file
                  (input_files
                     (Some [header_line;
                            lit "698d51a19d8a121ce581499d7b701668" ++ [TAB]
                                ++ lit "A" ++ [LF]])
                     None (Some [lit "111" ++ [LF]])))).
  reflexivity.
Defined.
